(** * Thought Completion: the suggestion lifecycle engine, its context
      extractor and its completion requester, embedded and verified.

    The development follows the TypeScript sources:
    - [JS]       the string primitives of the host language the code calls
                 ([slice], [indexOf], [trim], ...), on UTF-16 code units;
    - [Context]  src/ai/context.ts;
    - [Types]    src/types.ts;
    - [Provider] src/ai/prompts.ts and src/ai/provider.ts;
    - [Engine]   editor/ghost-text.ts, state-machine.ts and
                 editor/triggers.ts, with one editor view, driven by the
                 serialized stream of events the host delivers;
    - [Samples]  the documents, settings and event sequences the
                 scenarios are run on;
    - [Derived]  the notions the further properties of the code, proved
                 after the scenarios, are stated in. *)

From Stdlib Require Import ZArith NArith List Bool Lia String Ascii.
Import ListNotations.
Open Scope Z_scope.
Set Warnings "-register-all".
Set Warnings "-notation-overridden".
Set Warnings "-ambiguous-paths".

(* ===================================================================== *)
(** * Host-language strings *)
(* ===================================================================== *)

Module JS.

(** A string is a sequence of UTF-16 code units. *)
Definition jsstring := list N.

Definition lit (s : string) : jsstring :=
  List.map N_of_ascii (list_ascii_of_string s).

Definition length (s : jsstring) : Z := Z.of_nat (List.length s).

Definition isEmpty (s : jsstring) : bool :=
  match s with [] => true | _ => false end.

Fixpoint eqb (s t : jsstring) : bool :=
  match s, t with
  | [], [] => true
  | c :: s', d :: t' => N.eqb c d && eqb s' t'
  | _, _ => false
  end.

(** Index normalisation of [String.prototype.slice]: a negative index
    counts from the end, and everything is clamped to [0, len]. *)
Definition relIndex (len i : Z) : Z :=
  if i <? 0 then Z.max 0 (len + i) else Z.min i len.

Definition slice (s : jsstring) (a b : Z) : jsstring :=
  let from := relIndex (length s) a in
  let to := relIndex (length s) b in
  firstn (Z.to_nat (to - from)) (skipn (Z.to_nat from) s).

(** [s.slice(a)] *)
Definition sliceFrom (s : jsstring) (a : Z) : jsstring :=
  slice s a (length s).

Fixpoint startsWith (s p : jsstring) : bool :=
  match p, s with
  | [], _ => true
  | c :: p', d :: s' => N.eqb c d && startsWith s' p'
  | _ :: _, [] => false
  end.

Definition endsWith (s p : jsstring) : bool :=
  startsWith (rev s) (rev p).

(** [indexOfAux s needle i]: the first match at or after the head of [s],
    whose own index in the whole string is [i]. *)
Fixpoint indexOfAux (s needle : jsstring) (i : Z) : Z :=
  match s with
  | [] => if isEmpty needle then i else -1
  | _ :: s' => if startsWith s needle then i else indexOfAux s' needle (i + 1)
  end.

(** [s.indexOf(needle, from)] *)
Definition indexOfFrom (s needle : jsstring) (from : Z) : Z :=
  let k := Z.max 0 (Z.min from (length s)) in
  indexOfAux (skipn (Z.to_nat k) s) needle k.

Definition indexOf (s needle : jsstring) : Z := indexOfFrom s needle 0.

Fixpoint lastIndexOfAux (s needle : jsstring) (i acc : Z) : Z :=
  match s with
  | [] => if isEmpty needle then i else acc
  | _ :: s' =>
      lastIndexOfAux s' needle (i + 1) (if startsWith s needle then i else acc)
  end.

(** [s.lastIndexOf(needle)] *)
Definition lastIndexOf (s needle : jsstring) : Z :=
  lastIndexOfAux s needle 0 (-1).

Definition includes (s needle : jsstring) : bool :=
  negb (indexOf s needle <? 0).

(** The characters matched by [\s], which are also those removed by
    [trim]: WhiteSpace and LineTerminator. *)
Definition isLineTerminator (u : N) : bool :=
  (N.eqb u 10 || N.eqb u 13 || N.eqb u 8232 || N.eqb u 8233)%N.

Definition isWhiteSpace (u : N) : bool :=
  (N.eqb u 9 || N.eqb u 10 || N.eqb u 11 || N.eqb u 12 || N.eqb u 13
   || N.eqb u 32 || N.eqb u 160 || N.eqb u 5760
   || (N.leb 8192 u && N.leb u 8202)
   || N.eqb u 8232 || N.eqb u 8233 || N.eqb u 8239 || N.eqb u 8287
   || N.eqb u 12288 || N.eqb u 65279)%N.

Fixpoint trimStart (s : jsstring) : jsstring :=
  match s with
  | c :: s' => if isWhiteSpace c then trimStart s' else s
  | [] => []
  end.

Definition trimEnd (s : jsstring) : jsstring := rev (trimStart (rev s)).

Definition trim (s : jsstring) : jsstring := trimEnd (trimStart s).

(** [s.split(sep)] for a one-unit separator. *)
Fixpoint splitOn (sep : N) (s : jsstring) : list jsstring :=
  match s with
  | [] => [[]]
  | c :: s' =>
      if N.eqb c sep then [] :: splitOn sep s'
      else match splitOn sep s' with
           | l :: ls => (c :: l) :: ls
           | [] => [[c]]
           end
  end.

(** [parts.join(sep)] *)
Fixpoint join (sep : jsstring) (parts : list jsstring) : jsstring :=
  match parts with
  | [] => []
  | [p] => p
  | p :: ps => p ++ sep ++ join sep ps
  end.

Definition newline : N := 10%N.

End JS.

(* ===================================================================== *)
(** * src/ai/context.ts *)
(* ===================================================================== *)

Module Context.
Import JS.

(** What [extractContext] reads of the editor view: the document and the
    head of the main selection.  The view carries more than that (here the
    ghost-text field), which [extractContext] never looks at. *)
Record EditorState := mkEditorState {
  doc : jsstring;
  head : Z;
  ghost : option (jsstring * Z)
}.

(** [Omit<CompletionContext, 'mode'>] *)
Record ContextData := mkContextData {
  prefix : jsstring;
  suffix : jsstring;
  headingTrail : jsstring;
  cursorPosition : Z
}.

Fixpoint countWhile (p : N -> bool) (s : jsstring) : nat :=
  match s with
  | c :: s' => if p c then S (countWhile p s') else O
  | [] => O
  end.

(** Tries [f n], [f (n-1)], ..., [f 1]: the order in which a greedy
    quantifier gives characters back. *)
Fixpoint firstDown {A : Type} (n : nat) (f : nat -> option A) : option A :=
  match n with
  | O => None
  | S m => match f n with
           | Some x => Some x
           | None => firstDown m f
           end
  end.

(** [(.+)$]: one or more characters, none a line terminator, up to the end
    of the input (no [m] flag). *)
Definition dotPlusToEnd (s : jsstring) : bool :=
  negb (isEmpty s) && forallb (fun u => negb (isLineTerminator u)) s.

(** [line.match(/^(#{1,6})\s+(.+)$/)]: the two capture groups, as the
    length of the first and the text of the second. *)
Definition matchHeading (line : jsstring) : option (nat * jsstring) :=
  let hashes := Nat.min 6 (countWhile (N.eqb 35) line) in
  firstDown hashes (fun k =>
    let afterHashes := skipn k line in
    firstDown (countWhile isWhiteSpace afterHashes) (fun w =>
      let rest := skipn w afterHashes in
      if dotPlusToEnd rest then Some (k, rest) else None)).

(** The [while ... headings.pop()] loop; the stack is kept with its top
    (the last array element) first. *)
Fixpoint popDeeper (level : nat) (headings : list (nat * jsstring))
  : list (nat * jsstring) :=
  match headings with
  | (l, t) :: hs => if Nat.leb level l then popDeeper level hs else headings
  | [] => []
  end.

Definition headingStep (headings : list (nat * jsstring)) (line : jsstring)
  : list (nat * jsstring) :=
  match matchHeading line with
  | Some (level, m2) => (level, trim m2) :: popDeeper level headings
  | None => headings
  end.

Definition extractHeadingTrail (doc : jsstring) (cursorPosition : Z)
  : jsstring :=
  let textBefore := slice doc 0 cursorPosition in
  let lines := splitOn newline textBefore in
  let headings := rev (fold_left headingStep lines []) in
  match headings with
  | [] => []
  | _ => join (lit " > ") (List.map snd headings)
  end.

Definition extractContext (view : EditorState) (contextChars : Z)
  (includeHeadingTrail : bool) : ContextData :=
  let cursorPosition := head view in
  let doc := doc view in
  let prefixStart := Z.max 0 (cursorPosition - contextChars) in
  let prefix0 := slice doc prefixStart cursorPosition in
  let prefix :=
    if 0 <? prefixStart then
      let firstNewline := indexOf prefix0 [newline] in
      if (0 <? firstNewline) && (firstNewline <? 100)
      then sliceFrom prefix0 (firstNewline + 1)
      else prefix0
    else prefix0 in
  let suffixEnd := Z.min (length doc) (cursorPosition + contextChars / 3) in
  let suffix0 := slice doc cursorPosition suffixEnd in
  let suffix :=
    if suffixEnd <? length doc then
      let lastNewline := lastIndexOf suffix0 [newline] in
      if 0 <? lastNewline then slice suffix0 0 lastNewline else suffix0
    else suffix0 in
  let headingTrail :=
    if includeHeadingTrail then extractHeadingTrail doc cursorPosition
    else [] in
  mkContextData prefix suffix headingTrail cursorPosition.

(** Matches of [/^```/gm]: a fence is counted where three backquotes stand
    at the start of the input or right after a line terminator. *)
Fixpoint countFences (s : jsstring) (atLineStart : bool) : nat :=
  match s with
  | [] => O
  | c :: s' =>
      ((if atLineStart && startsWith s (lit "```") then 1 else 0)
       + countFences s' (isLineTerminator c))%nat
  end.

Definition isInCodeBlock (doc : jsstring) (cursorPosition : Z) : bool :=
  let textBefore := slice doc 0 cursorPosition in
  let openFences := countFences textBefore true in
  Nat.odd openFences.

Definition isInFrontmatter (doc : jsstring) (cursorPosition : Z) : bool :=
  if negb (startsWith doc (lit "---" ++ [newline])) then false
  else
    let endOfFrontmatter :=
      indexOfFrom doc ([newline] ++ lit "---" ++ [newline]) 4 in
    if endOfFrontmatter =? -1
    then cursorPosition <? indexOfFrom doc [newline] 4 + 100
    else cursorPosition <=? endOfFrontmatter + 4.

End Context.

(* ===================================================================== *)
(** * src/types.ts *)
(* ===================================================================== *)

Module Types.
Import JS.

Inductive SuggestionMode :=
  ModeAuto | ModeQuestions | ModeStructural | ModeCritical | ModeConnector.

Inductive SuggestionState := idle | queued | predicting | suggesting | disabled.

Inductive SuggestionCase := CaseNone | CaseLower | CaseFirstLower.

Definition SuggestionState_eqb (a b : SuggestionState) : bool :=
  match a, b with
  | idle, idle | queued, queued | predicting, predicting
  | suggesting, suggesting | disabled, disabled => true
  | _, _ => false
  end.

(** [ThoughtCompletionSettings].  [temperature] (a float that is only
    copied into the request body), [showStatusBar] and [customPrompts]
    (never read by the engine) are left out. *)
Record Settings := mkSettings {
  apiEndpoint : jsstring;
  apiKey : jsstring;
  model : jsstring;
  mode : SuggestionMode;
  triggerDelay : Z;
  triggerOnPunctuation : bool;
  triggerOnNewline : bool;
  manualTriggerOnly : bool;
  contextChars : Z;
  includeHeadingTrail : bool;
  maxTokens : Z;
  enabled : bool;
  suggestionCase : SuggestionCase
}.

Record CompletionContext := mkCompletionContext {
  contextData : Context.ContextData;
  contextMode : SuggestionMode
}.

End Types.

(* ===================================================================== *)
(** * src/ai/prompts.ts and src/ai/provider.ts *)
(* ===================================================================== *)

Module Provider.
Import JS Types.

(** ** Values the requester exchanges with the outside *)

(** A parsed response body. *)
Inductive json :=
| JNull
| JBool (b : bool)
| JNumber (n : Z)
| JString (s : jsstring)
| JArray (items : list json)
| JObject (fields : list (jsstring * json)).

(** A thrown value, as far as the [catch] clause inspects it. *)
Record Thrown := mkThrown {
  instanceofError : bool;
  name : jsstring
}.

Definition AbortError : Thrown := mkThrown true (lit "AbortError").
Definition TypeError : Thrown := mkThrown true (lit "TypeError").

Inductive Outcome (A : Type) :=
| Returns (a : A)
| Throws (e : Thrown).
Arguments Returns {A} a.
Arguments Throws {A} e.

(** What [fetch] resolves to; reading the body may itself fail. *)
Record Response := mkResponse {
  ok : bool;
  status : Z;
  bodyText : Outcome jsstring;
  bodyJson : Outcome json
}.

Record Request := mkRequest {
  url : jsstring;
  authorization : jsstring;
  reqModel : jsstring;
  systemPromptFor : SuggestionMode;
  userPrompt : jsstring;
  max_tokens : Z
}.

Inductive Effect :=
| ConsoleWarn
| ConsoleError
| Fetch (controller : nat) (r : Request)
| SignalAbort (controller : nat).

(** The provider object: the controller it holds, and what it did. *)
Record AIProvider := mkAIProvider {
  abortController : option nat;
  effects : list Effect
}.

(** How many requests the provider has sent, how many errors it has
    logged. *)
Definition fetches (a : AIProvider) : nat :=
  List.length (filter (fun e => match e with Fetch _ _ => true | _ => false end)
                      (effects a)).

Definition errorsLogged (a : AIProvider) : nat :=
  List.length (filter (fun e => match e with ConsoleError => true | _ => false end)
                      (effects a)).

Arguments fetches : simpl never.
Arguments errorsLogged : simpl never.

(** ** A small monad: provider state plus exceptions *)

Definition P (A : Type) : Type := AIProvider -> Outcome A * AIProvider.

Definition ret {A} (a : A) : P A := fun s => (Returns a, s).

Definition throw {A} (e : Thrown) : P A := fun s => (Throws e, s).

Definition bind {A B} (m : P A) (k : A -> P B) : P B :=
  fun s => match m s with
           | (Returns a, s') => k a s'
           | (Throws e, s') => (Throws e, s')
           end.

Definition await {A} (o : Outcome A) : P A := fun s => (o, s).

Definition emit (e : Effect) : P unit :=
  fun s => (Returns tt, mkAIProvider (abortController s) (effects s ++ [e])).

Definition setController (c : option nat) : P unit :=
  fun s => (Returns tt, mkAIProvider c (effects s)).

Definition getController : P (option nat) :=
  fun s => (Returns (abortController s), s).

(** [try { body } catch (error) { handler error } finally { fin }], where
    [handler] and [fin] complete normally, as they do in [complete]. *)
Definition tryCatchFinally {A} (body : P A) (handler : Thrown -> P A)
  (fin : P unit) : P A :=
  fun s =>
    let r := match body s with
             | (Returns a, s') => (Returns a, s')
             | (Throws e, s') => handler e s'
             end in
    match fin (snd r) with
    | (Returns _, s'') => (fst r, s'')
    | (Throws e, s'') => (Throws e, s'')
    end.

Declare Scope provider_scope.
Delimit Scope provider_scope with provider.
Notation "x <- m ;; k" := (bind m (fun x => k))
  (at level 61, m at next level, right associativity) : provider_scope.
Notation "m ;; k" := (bind m (fun _ => k))
  (at level 61, right associativity) : provider_scope.

(** ** prompts.ts *)

Definition buildUserPrompt (prefix suffix headingTrail : jsstring) : jsstring :=
  let parts0 :=
    if isEmpty headingTrail then []
    else [lit "Current section: " ++ headingTrail; []] in
  let parts1 :=
    parts0 ++ [lit "Text:"; lit "---"; prefix; lit "[CURSOR - writer is here]"] in
  let parts2 :=
    if isEmpty (trim suffix) then parts1 else parts1 ++ [suffix] in
  join [newline] parts2.

(** ** Output post-processing *)

Definition prefixes : list jsstring :=
  [lit "Suggestion: "; lit "Consider: "; lit "Think about: ";
   lit "Question: "; lit "Try: "].

(** The [for ... break] loop of [cleanSuggestion]. *)
Fixpoint stripFirstPrefix (ps : list jsstring) (cleaned : jsstring) : jsstring :=
  match ps with
  | [] => cleaned
  | p :: ps' =>
      if startsWith cleaned p then sliceFrom cleaned (length p)
      else stripFirstPrefix ps' cleaned
  end.

Definition doubleQuote : N := 34%N.
Definition singleQuote : N := 39%N.

Definition cleanSuggestion (suggestion : jsstring) : jsstring :=
  let cleaned :=
    if (startsWith suggestion [doubleQuote] && endsWith suggestion [doubleQuote])
       || (startsWith suggestion [singleQuote] && endsWith suggestion [singleQuote])
    then slice suggestion 1 (-1)
    else suggestion in
  trim (stripFirstPrefix prefixes cleaned).

Section WithLowerCase.

(** [String.prototype.toLowerCase], which the host provides. *)
Variable toLowerCase : jsstring -> jsstring.

Definition SuggestionCase_eqb (a b : SuggestionCase) : bool :=
  match a, b with
  | CaseNone, CaseNone | CaseLower, CaseLower
  | CaseFirstLower, CaseFirstLower => true
  | _, _ => false
  end.

Definition transformCase (text : jsstring) (caseType : SuggestionCase)
  : jsstring :=
  if isEmpty text || SuggestionCase_eqb caseType CaseNone then text
  else
    match caseType with
    | CaseLower => toLowerCase text
    | CaseFirstLower =>
        match text with
        | [] => text
        | firstChar :: rest =>
            let secondOk :=
              match rest with
              | [] => true
              | secondChar :: _ => eqb [secondChar] (toLowerCase [secondChar])
              end in
            if (length text =? 1) || secondOk
            then toLowerCase [firstChar] ++ sliceFrom text 1
            else text
        end
    | CaseNone => text
    end.

(** ** Reading the suggestion out of the response body *)

Fixpoint lookupField (fields : list (jsstring * json)) (key : jsstring)
  : option json :=
  match fields with
  | [] => None
  | (k, v) :: fs =>
      match lookupField fs key with
      | Some later => Some later
      | None => if eqb k key then Some v else None
      end
  end.

(** [v.key] for a value that is neither null nor undefined and a key that
    no prototype defines. *)
Definition getProp (v : json) (key : jsstring) : option json :=
  match v with
  | JObject fields => lookupField fields key
  | _ => None
  end.

(** [v[0]] for a value that is neither null nor undefined. *)
Definition getIndex0 (v : json) : option json :=
  match v with
  | JArray items => List.hd_error items
  | JString s => match s with c :: _ => Some (JString [c]) | [] => None end
  | JObject fields => lookupField fields (lit "0")
  | _ => None
  end.

(** One [?.] link: undefined and null short-circuit the chain. *)
Definition optChain {A} (v : option json) (k : json -> Outcome (option A))
  : Outcome (option A) :=
  match v with
  | None | Some JNull => Returns None
  | Some x => k x
  end.

(** [data.choices?.[0]?.message?.content?.trim()] *)
Definition extractContent (data : json) : Outcome (option jsstring) :=
  match data with
  | JNull => Throws TypeError
  | _ =>
      optChain (getProp data (lit "choices")) (fun choices =>
      optChain (getIndex0 choices) (fun choice =>
      optChain (getProp choice (lit "message")) (fun message =>
      optChain (getProp message (lit "content")) (fun content =>
        match content with
        | JString s => Returns (Some (trim s))
        | _ => Throws TypeError
        end))))
  end.

(** ** The requester *)

Arguments cleanSuggestion : simpl never.
Arguments transformCase : simpl never.

Local Open Scope provider_scope.

Definition abort : P unit :=
  c <- getController ;;
  match c with
  | Some id => emit (SignalAbort id) ;; setController None
  | None => ret tt
  end.

Definition buildRequest (settings : Settings) (context : CompletionContext)
  : Request :=
  let d := contextData context in
  mkRequest (apiEndpoint settings ++ lit "/chat/completions")
            (lit "Bearer " ++ apiKey settings)
            (model settings)
            (contextMode context)
            (buildUserPrompt (Context.prefix d) (Context.suffix d)
                             (Context.headingTrail d))
            (maxTokens settings).

(** [complete] up to its first suspension: either it has already
    returned, or [fetch] has been called and the call waits for it. *)
Inductive Started :=
| Resolved (r : option jsstring)
| AwaitingFetch.

Definition completeStart (settings : Settings) (controller : nat)
  (context : CompletionContext) : P Started :=
  abort ;;
  if isEmpty (apiKey settings) || isEmpty (apiEndpoint settings) then
    emit ConsoleWarn ;;
    ret (Resolved None)
  else
    setController (Some controller) ;;
    emit (Fetch controller (buildRequest settings context)) ;;
    ret AwaitingFetch.

(** The rest of the [try] block once [fetch] has settled, with its
    [catch] and [finally]. *)
Definition completeFinish (settings : Settings) (net : Outcome Response)
  : P (option jsstring) :=
  tryCatchFinally
    (response <- await net ;;
     if negb (ok response) then
       _ <- await (bodyText response) ;;
       emit ConsoleError ;;
       ret None
     else
       data <- await (bodyJson response) ;;
       suggestion <- await (extractContent data) ;;
       match suggestion with
       | None | Some [] => ret None
       | Some s =>
           let cleaned := cleanSuggestion s in
           let transformed := transformCase cleaned (suggestionCase settings) in
           ret (Some transformed)
       end)
    (fun error =>
       if instanceofError error && eqb (name error) (lit "AbortError")
       then ret None
       else emit ConsoleError ;; ret None)
    (setController None).

(** [complete(context)], the outside world answering the request, if one
    is made, with [net]. *)
Definition complete (settings : Settings) (controller : nat)
  (context : CompletionContext) (net : Outcome Response)
  : P (option jsstring) :=
  started <- completeStart settings controller context ;;
  match started with
  | Resolved r => ret r
  | AwaitingFetch => completeFinish settings net
  end.

End WithLowerCase.

(** A response whose body carries no suggestion: it does not parse, or
    reading the content out of it fails, finds nothing, or finds only
    white space. *)
Definition malformedBody (resp : Response) : bool :=
  match bodyJson resp with
  | Throws _ => true
  | Returns data =>
      match extractContent data with
      | Returns (Some (_ :: _)) => false
      | _ => true
      end
  end.

Definition configured (settings : Settings) : bool :=
  negb (isEmpty (apiKey settings) || isEmpty (apiEndpoint settings)).

(** A lower-casing function to run the model with: the ASCII letters. *)
Definition asciiLowerUnit (u : N) : N :=
  if (N.leb 65 u && N.leb u 90)%N then (u + 32)%N else u.

Definition asciiLower (s : jsstring) : jsstring := List.map asciiLowerUnit s.

End Provider.

(* ===================================================================== *)
(** * The engine: ghost-text field, state machine, trigger plugin *)
(* ===================================================================== *)

Module Engine.
Import JS Types Context Provider.

(** ** The objects and the host that runs them *)

(** The model is of a session with one editor view.  main.ts creates one
    [SuggestionStateMachine] and registers the extension for every editor,
    so each editor has its own ghost-text field and its own
    [TriggerPlugin], all around the one machine; with one editor open
    there is one field, one plugin and one view the machine can refer to,
    and that is what [World] holds.  What several editors do to each other
    through the shared machine is outside the model: the statements below
    about the overlay, the plugin or the cursor are about that one
    editor. *)

(** [SuggestionStateMachine].  There is one editor view, so [currentView]
    only records whether the reference has been set; [notified] lists what
    the state-change callbacks were called with. *)
Record Machine := mkMachine {
  state : SuggestionState;
  queueTimer : option nat;
  currentView : bool;
  notified : list SuggestionState
}.

Record TriggerPlugin := mkTriggerPlugin {
  lastDocLength : Z;
  idleTimer : option nat
}.

Inductive TimerKind := QueueTimer | IdleTimer.

(** A call of [predict] suspended at [await this.aiProvider.complete(context)],
    with what its closure captured. *)
Record Pending := mkPending {
  rid : nat;
  context : CompletionContext;
  started : Started
}.

(** The scheduler: live [setTimeout] callbacks, [requestAnimationFrame]
    callbacks not yet run, suspended [predict] calls. *)
Record Host := mkHost {
  timeouts : list (nat * TimerKind);
  frames : nat;
  pending : list Pending;
  nextId : nat
}.

(** Everything that changes.  [settings] is the one settings object that
    the plugin, the machine, the provider and the timer closures all
    share; [dispatched] lists the values of [setSuggestionEffect] handed
    to [view.dispatch]. *)
Record World := mkWorld {
  view : EditorState;
  dispatched : list (option (jsstring * Z));
  settings : Settings;
  machine : Machine;
  aiProvider : AIProvider;
  plugin : TriggerPlugin;
  host : Host
}.

Definition M (A : Type) : Type := World -> A * World.

Definition ret {A} (a : A) : M A := fun w => (a, w).

Definition bind {A B} (m : M A) (k : A -> M B) : M B :=
  fun w => let (a, w') := m w in k a w'.

Definition gets {A} (f : World -> A) : M A := fun w => (f w, w).

Definition modify (f : World -> World) : M unit := fun w => (tt, f w).

Definition exec {A} (m : M A) (w : World) : World := snd (m w).

Declare Scope engine_scope.
Delimit Scope engine_scope with engine.
Notation "x <- m ;; k" := (bind m (fun x => k))
  (at level 61, m at next level, right associativity) : engine_scope.
Notation "m ;; k" := (bind m (fun _ => k))
  (at level 61, right associativity) : engine_scope.
Local Open Scope engine_scope.

Definition when (b : bool) (m : M unit) : M unit := if b then m else ret tt.

Definition setView_ (v : EditorState) (w : World) : World :=
  mkWorld v (dispatched w) (settings w) (machine w) (aiProvider w)
          (plugin w) (host w).

Definition setMachine (m : Machine) (w : World) : World :=
  mkWorld (view w) (dispatched w) (settings w) m (aiProvider w)
          (plugin w) (host w).

Definition setProvider (a : AIProvider) (w : World) : World :=
  mkWorld (view w) (dispatched w) (settings w) (machine w) a
          (plugin w) (host w).

Definition setPlugin (p : TriggerPlugin) (w : World) : World :=
  mkWorld (view w) (dispatched w) (settings w) (machine w) (aiProvider w)
          p (host w).

Definition setHost (h : Host) (w : World) : World :=
  mkWorld (view w) (dispatched w) (settings w) (machine w) (aiProvider w)
          (plugin w) h.

Definition setSettings (s : Settings) (w : World) : World :=
  mkWorld (view w) (dispatched w) s (machine w) (aiProvider w)
          (plugin w) (host w).

Definition getState : M SuggestionState := gets (fun w => state (machine w)).

Definition stateIs (s : SuggestionState) : M bool :=
  st <- getState ;; ret (SuggestionState_eqb st s).

(** ** The host's timers and frames *)

Definition setTimeout (kind : TimerKind) : M nat :=
  fun w =>
    let h := host w in
    let id := nextId h in
    (id, setHost (mkHost (timeouts h ++ [(id, kind)]) (frames h) (pending h)
                         (S id)) w).

Definition clearTimeout (id : nat) : M unit :=
  modify (fun w =>
    let h := host w in
    setHost (mkHost (filter (fun t => negb (Nat.eqb (fst t) id)) (timeouts h))
                    (frames h) (pending h) (nextId h)) w).

Definition requestAnimationFrame : M unit :=
  modify (fun w =>
    let h := host w in
    setHost (mkHost (timeouts h) (S (frames h)) (pending h) (nextId h)) w).

(** ** editor/ghost-text.ts *)

(** [ghostTextState.update]: the new [suggestion] from the old one, the
    values of the transaction's [setSuggestionEffect]s, [tr.docChanged],
    whether [tr.selection] is set, and the head of the new selection.
    Building the decoration set from a single range does not throw, so the
    [catch] is never entered. *)
Definition ghostTextUpdate (suggestion : option (jsstring * Z))
  (effects : list (option (jsstring * Z))) (docChanged selection : bool)
  (cursorPos : Z) : option (jsstring * Z) :=
  let s1 := fold_left (fun _ value => value) effects suggestion in
  let s2 := if docChanged then None else s1 in
  match s2 with
  | Some (text, position) =>
      if selection && negb (cursorPos =? position) then None else s2
  | None => None
  end.

Definition setView : M unit :=
  modify (fun w =>
    let m := machine w in
    setMachine (mkMachine (state m) (queueTimer m) true (notified m)) w).

(** [view.dispatch({ effects: setSuggestionEffect.of(value) })]: the
    field is updated, and the trigger plugin's [update] runs with neither
    [docChanged] nor [selectionSet], where all it does is [setView]. *)
Definition dispatchEffect (value : option (jsstring * Z)) : M unit :=
  modify (fun w =>
    let v := view w in
    let w1 := setView_ (mkEditorState (doc v) (head v)
                 (ghostTextUpdate (ghost v) [value] false false (head v))) w in
    mkWorld (view w1) (dispatched w1 ++ [value]) (settings w1) (machine w1)
            (aiProvider w1) (plugin w1) (host w1)) ;;
  setView.

Definition showSuggestion (text : jsstring) : M unit :=
  position <- gets (fun w => head (view w)) ;;
  dispatchEffect (Some (text, position)).

Definition clearSuggestion : M unit := dispatchEffect None.

Definition hasSuggestion : M bool :=
  gets (fun w => match ghost (view w) with Some _ => true | None => false end).

(** ** state-machine.ts *)

Definition setState (newState : SuggestionState) : M unit :=
  same <- stateIs newState ;;
  when (negb same)
    (modify (fun w =>
       let m := machine w in
       setMachine (mkMachine newState (queueTimer m) (currentView m)
                             (notified m ++ [newState])) w)).

Definition setQueueTimer (t : option nat) : M unit :=
  modify (fun w =>
    let m := machine w in
    setMachine (mkMachine (state m) t (currentView m) (notified m)) w).

Definition startQueueTimer : M unit :=
  id <- setTimeout QueueTimer ;;
  setQueueTimer (Some id).

Definition cancelQueueTimer : M unit :=
  t <- gets (fun w => queueTimer (machine w)) ;;
  match t with
  | Some id => clearTimeout id ;; setQueueTimer None
  | None => ret tt
  end.

(** [this.aiProvider.abort()] *)
Definition abortProvider : M unit :=
  modify (fun w => setProvider (snd (Provider.abort (aiProvider w))) w).

(** [predict()] up to its suspension at [await complete(context)]. *)
Definition predict : M unit :=
  hasView <- gets (fun w => currentView (machine w)) ;;
  isPredicting <- stateIs predicting ;;
  if negb hasView || negb isPredicting then ret tt
  else
    fun w =>
      let s := settings w in
      let contextData :=
        extractContext (view w) (contextChars s) (includeHeadingTrail s) in
      let context := mkCompletionContext contextData (mode s) in
      let h := host w in
      let id := nextId h in
      match completeStart s id context (aiProvider w) with
      | (Returns st, ai') =>
          (tt, setHost (mkHost (timeouts h) (frames h)
                               (pending h ++ [mkPending id context st])
                               (S id))
                       (setProvider ai' w))
      | (Throws _, ai') => (tt, setProvider ai' w)
      end.

(** [predict()] from where [complete] has resolved to [suggestion]. *)
Definition predictResume (context : CompletionContext)
  (suggestion : option jsstring) : M unit :=
  isPredicting <- stateIs predicting ;;
  if negb isPredicting then ret tt
  else
    match suggestion with
    | Some (c :: text) =>
        currentPos <- gets (fun w => head (view w)) ;;
        if currentPos =? cursorPosition (contextData context) then
          showSuggestion (c :: text) ;;
          setState suggesting
        else setState idle
    | _ => setState idle
    end.

Definition trigger : M unit :=
  isDisabled <- stateIs disabled ;;
  if isDisabled then ret tt
  else
    manualOnly <- gets (fun w => manualTriggerOnly (settings w)) ;;
    if manualOnly then ret tt
    else
      setView ;;
      d <- gets (fun w => doc (view w)) ;;
      pos <- gets (fun w => head (view w)) ;;
      if isInCodeBlock d pos then ret tt
      else if isInFrontmatter d pos then ret tt
      else
        st <- getState ;;
        match st with
        | queued => cancelQueueTimer
        | predicting => abortProvider
        | suggesting => clearSuggestion
        | _ => ret tt
        end ;;
        setState queued ;;
        startQueueTimer.

Definition manualTrigger : M unit :=
  isDisabled <- stateIs disabled ;;
  if isDisabled then ret tt
  else
    setView ;;
    d <- gets (fun w => doc (view w)) ;;
    pos <- gets (fun w => head (view w)) ;;
    if isInCodeBlock d pos || isInFrontmatter d pos then ret tt
    else
      cancelQueueTimer ;;
      abortProvider ;;
      isSuggesting <- stateIs suggesting ;;
      when isSuggesting clearSuggestion ;;
      setState predicting ;;
      predict.

Definition cancelQueue : M unit :=
  st <- getState ;;
  match st with
  | queued => cancelQueueTimer ;; setState idle
  | predicting => abortProvider ;; setState idle
  | suggesting => setState idle
  | _ => ret tt
  end.

Definition dismiss : M unit :=
  isSuggesting <- stateIs suggesting ;;
  hasView <- gets (fun w => currentView (machine w)) ;;
  when (isSuggesting && hasView)
    (setState idle ;;
     requestAnimationFrame).

Definition disable : M unit :=
  cancelQueueTimer ;;
  abortProvider ;;
  isSuggesting <- stateIs suggesting ;;
  hasView <- gets (fun w => currentView (machine w)) ;;
  when (isSuggesting && hasView) clearSuggestion ;;
  setState disabled.

Definition enable : M unit :=
  isDisabled <- stateIs disabled ;;
  when isDisabled (setState idle).

Definition updateSettings (s : Settings) : M unit :=
  modify (setSettings s) ;;
  isDisabled <- stateIs disabled ;;
  if negb (enabled s) && negb isDisabled then disable
  else if enabled s && isDisabled then enable
  else ret tt.

(** The callback [startQueueTimer] hands to [setTimeout]. *)
Definition queueTimerFired : M unit :=
  setQueueTimer None ;;
  isQueued <- stateIs queued ;;
  when isQueued (setState predicting ;; predict).

(** ** editor/triggers.ts *)

Definition setIdleTimer (t : option nat) : M unit :=
  modify (fun w => setPlugin (mkTriggerPlugin (lastDocLength (plugin w)) t) w).

Definition clearIdleTimer : M unit :=
  t <- gets (fun w => idleTimer (plugin w)) ;;
  match t with
  | Some id => clearTimeout id ;; setIdleTimer None
  | None => ret tt
  end.

Definition resetIdleTimer : M unit :=
  clearIdleTimer ;;
  id <- setTimeout IdleTimer ;;
  setIdleTimer (Some id).

(** The callback [resetIdleTimer] hands to [setTimeout]; its [settings]
    is the shared settings object. *)
Definition idleTimerFired : M unit :=
  setIdleTimer None ;;
  s <- gets settings ;;
  when (enabled s && negb (manualTriggerOnly s)) trigger.

(** [doc.lineAt(pos)]: where the line holding [pos] starts and ends. *)
Definition lineFrom (d : jsstring) (pos : Z) : Z :=
  lastIndexOf (slice d 0 pos) [newline] + 1.

Definition lineTo (d : jsstring) (pos : Z) : Z :=
  let i := indexOfFrom d [newline] pos in
  if i <? 0 then length d else i.

(** What [update] reads of a [ViewUpdate] besides the new editor state:
    the transaction is one, [inserted] lists the texts its changes insert. *)
Record ViewUpdate := mkViewUpdate {
  docChanged : bool;
  selectionSet : bool;
  isInputType : bool;
  inserted : list jsstring
}.

Fixpoint forEach {A} (l : list A) (f : A -> M unit) : M unit :=
  match l with
  | [] => ret tt
  | x :: l' => f x ;; forEach l' f
  end.

Definition isPunctuation (u : N) : bool :=
  (N.eqb u 46 || N.eqb u 33 || N.eqb u 63)%N.

Definition checkTriggers (u : ViewUpdate) (s : Settings) : M unit :=
  d <- gets (fun w => doc (view w)) ;;
  pos <- gets (fun w => head (view w)) ;;
  let charBefore := if lineFrom d pos <? pos then slice d (pos - 1) pos else [] in
  let charAfter := if pos <? length d then slice d pos (pos + 1) else [] in
  if triggerOnPunctuation s && existsb isPunctuation charBefore
     && (isEmpty charAfter || existsb isWhiteSpace charAfter
         || (pos =? lineTo d pos))
  then trigger
  else
    when (triggerOnNewline s)
      (when (isInputType u)
         (forEach (inserted u) (fun insertedText =>
            when (includes insertedText [newline]) trigger))).

(** [TriggerPlugin.update], the editor state being already the new one. *)
Definition pluginUpdate (u : ViewUpdate) : M unit :=
  s <- gets settings ;;
  setView ;;
  if negb (enabled s) then ret tt
  else if manualTriggerOnly s then ret tt
  else
    when (docChanged u)
      (newLength <- gets (fun w => length (doc (view w))) ;;
       last <- gets (fun w => lastDocLength (plugin w)) ;;
       let isTyping := last <? newLength in
       modify (fun w =>
         setPlugin (mkTriggerPlugin newLength (idleTimer (plugin w))) w) ;;
       cancelQueue ;;
       resetIdleTimer ;;
       when isTyping (checkTriggers u s)) ;;
    when (selectionSet u && negb (docChanged u)) dismiss.

(** ** The events the host delivers *)

(** A transaction of the user's: the document and the head after it,
    whether it changed the document, whether it set the selection. *)
Record Transaction := mkTransaction {
  trDocChanged : bool;
  trDoc : jsstring;
  trSelection : bool;
  trHead : Z;
  trInputType : bool;
  trInserted : list jsstring
}.

Inductive Event :=
| Dispatch (tr : Transaction)
| Timeout (id : nat)
| AnimationFrame
| Settle (id : nat) (net : Outcome Response)
| CommandTrigger
| CommandDismiss
| KeyEscape
| SettingsEdited (s : Settings)
| SettingsSaved.

Definition dispatchUser (tr : Transaction) : M unit :=
  modify (fun w =>
    let v := view w in
    let d := if trDocChanged tr then trDoc tr else doc v in
    let h := if trDocChanged tr || trSelection tr then trHead tr else head v in
    setView_ (mkEditorState d h
                (ghostTextUpdate (ghost v) [] (trDocChanged tr)
                                 (trSelection tr) h)) w) ;;
  pluginUpdate (mkViewUpdate (trDocChanged tr) (trSelection tr)
                             (trInputType tr) (trInserted tr)).

Definition timeoutFired (id : nat) : M unit :=
  ts <- gets (fun w => timeouts (host w)) ;;
  match find (fun t => Nat.eqb (fst t) id) ts with
  | Some (_, kind) =>
      clearTimeout id ;;
      match kind with
      | QueueTimer => queueTimerFired
      | IdleTimer => idleTimerFired
      end
  | None => ret tt
  end.

Definition animationFrame : M unit :=
  n <- gets (fun w => frames (host w)) ;;
  match n with
  | S k =>
      modify (fun w =>
        let h := host w in
        setHost (mkHost (timeouts h) k (pending h) (nextId h)) w) ;;
      clearSuggestion
  | O => ret tt
  end.

Definition escapeKey : M unit :=
  shown <- hasSuggestion ;;
  when shown (clearSuggestion ;; dismiss).

Definition signalled (id : nat) (a : AIProvider) : bool :=
  existsb (fun e => match e with
                    | SignalAbort c => Nat.eqb c id
                    | _ => false
                    end) (effects a).

Section WithLowerCase.

Variable toLowerCase : jsstring -> jsstring.

(** The request of the suspended call [id] settles, the network answering
    [net]; a request whose signal was aborted is rejected with an
    [AbortError] whatever the network did. *)
Definition settle (id : nat) (net : Outcome Response) : M unit :=
  ps <- gets (fun w => pending (host w)) ;;
  match find (fun p => Nat.eqb (rid p) id) ps with
  | None => ret tt
  | Some p =>
      modify (fun w =>
        let h := host w in
        setHost (mkHost (timeouts h) (frames h)
                        (filter (fun q => negb (Nat.eqb (rid q) id)) (pending h))
                        (nextId h)) w) ;;
      match started p with
      | Resolved r => predictResume (context p) r
      | AwaitingFetch =>
          fun w =>
            let a := aiProvider w in
            let net' := if signalled id a then Throws AbortError else net in
            match completeFinish toLowerCase (settings w) net' a with
            | (Returns r, a') => predictResume (context p) r (setProvider a' w)
            | (Throws _, a') => (tt, setProvider a' w)
            end
      end
  end.

Definition step (e : Event) : M unit :=
  match e with
  | Dispatch tr => dispatchUser tr
  | Timeout id => timeoutFired id
  | AnimationFrame => animationFrame
  | Settle id net => settle id net
  | CommandTrigger => manualTrigger
  | CommandDismiss => dismiss
  | KeyEscape => escapeKey
  | SettingsEdited s => modify (setSettings s)
  | SettingsSaved => s <- gets settings ;; updateSettings s
  end.

Fixpoint run (es : list Event) (w : World) : World :=
  match es with
  | [] => w
  | e :: es' => run es' (exec (step e) w)
  end.

End WithLowerCase.

(** The world once the plugin is loaded with settings [s] and an editor
    on document [d] with the cursor at [h] is open: the machine's
    constructor has run, then the trigger plugin's. *)
Definition initial (s : Settings) (d : jsstring) (h : Z) : World :=
  mkWorld (mkEditorState d h None) [] s
          (mkMachine (if enabled s then idle else disabled) None true [])
          (mkAIProvider None [])
          (mkTriggerPlugin (length d) None)
          (mkHost [] O [] 1%nat).

(** The overlay the writer sees. *)
Definition overlay (w : World) : option (jsstring * Z) := ghost (view w).

Definition phase (w : World) : SuggestionState := state (machine w).

(** The cursor offset the suspended call [id] captured with its context. *)
Definition capturedCursor (w : World) (id : nat) : option Z :=
  match find (fun p => Nat.eqb (rid p) id) (pending (host w)) with
  | Some p => Some (cursorPosition (contextData (context p)))
  | None => None
  end.

(** Whether the cursor stands where suggestions are offered. *)
Definition eligible (w : World) : bool :=
  negb (isInCodeBlock (doc (view w)) (head (view w))
        || isInFrontmatter (doc (view w)) (head (view w))).

(** What survives of "an overlay is there exactly in phase [suggesting]":
    an overlay is there only in phase [suggesting], or while a clear that
    [dismiss] deferred to the next animation frame has yet to run. *)
Definition overlayAccounted (w : World) : Prop :=
  currentView (machine w) = true
  /\ (overlay w <> None ->
      phase w = suggesting \/ (0 < frames (host w))%nat).

(** No overlay at all, as after any change to the document. *)
Definition quiet (w : World) : Prop :=
  currentView (machine w) = true /\ overlay w = None.

Definition isDisabled (w : World) : Prop := phase w = disabled.

Definition preserves {A} (P : World -> Prop) (m : M A) : Prop :=
  forall w, P w -> P (snd (m w)).

End Engine.

(* ===================================================================== *)
(** * Sample documents, settings and events *)
(* ===================================================================== *)

Module Samples.
Import JS Types Context Provider Engine.

(** A long document, for a budget of 9: the window is cut on both sides
    and trimmed to line boundaries. *)
Definition sampleDoc : jsstring :=
  lit "# Intro" ++ [newline] ++ lit "alpha" ++ [newline] ++ lit "beta gamma"
  ++ [newline] ++ lit "delta" ++ [newline] ++ lit "epsilon".

Definition cfg : Settings :=
  mkSettings (lit "https://api.example/v1") (lit "sk-key") (lit "gpt-4o-mini")
             ModeAuto 2000 true true false 1500 true 500 true CaseNone.

(** The same with the manual-only flag set. *)
Definition cfgManualOnly : Settings :=
  mkSettings (lit "https://api.example/v1") (lit "sk-key") (lit "gpt-4o-mini")
             ModeAuto 2000 true true true 1500 true 500 true CaseNone.

(** The same with [enabled] off. *)
Definition cfgOff : Settings :=
  mkSettings (lit "https://api.example/v1") (lit "sk-key") (lit "gpt-4o-mini")
             ModeAuto 2000 true true false 1500 true 500 false CaseNone.

(** A successful response whose first choice has content [t]. *)
Definition okBody (t : jsstring) : Outcome Response :=
  Returns (mkResponse true 200 (Returns [])
    (Returns (JObject [(lit "choices",
       JArray [JObject [(lit "message",
         JObject [(lit "content", JString t)])]])]))).

Definition note : jsstring :=
  lit "# Intro" ++ [newline] ++ lit "The plan is solid.".

(** 26 units of heading and sentence, then a second sentence: 45 units. *)
Definition longNote : jsstring := note ++ lit " We ship on Friday.".

(** A document that opens a code fence and never closes it. *)
Definition fenced : jsstring := lit "```" ++ [newline] ++ lit "let x = 1".

(** The editor open on [note], cursor at the end. *)
Definition start : World := initial cfg note 26.

(** The cursor moves to [h]; nothing is edited. *)
Definition moveTo (h : Z) : Transaction :=
  mkTransaction false [] true h false [].

(** The writer types [text], which leaves document [d] and the cursor
    at [h]. *)
Definition typed (d : jsstring) (h : Z) (text : jsstring) : Transaction :=
  mkTransaction true d false h true [text].

Definition think : jsstring := lit "Name the biggest risk.".

(** The editor on [note]; the trigger command has been run and its
    request is in flight. *)
Definition requested : World := run asciiLower [CommandTrigger] start.

(** The trigger command run twice in a row: the first request has been
    signalled to abort, the second is in flight. *)
Definition retriggered : World :=
  run asciiLower [CommandTrigger; CommandTrigger] start.

(** The aborted first request has settled. *)
Definition staleSettled : World :=
  run asciiLower [Settle 1 (Throws AbortError)] retriggered.

(** After that the writer typed an exclamation mark. *)
Definition typedOn : World :=
  run asciiLower [Dispatch (typed (note ++ lit "!") 27 (lit "!"))] staleSettled.

(** A suggestion shown at offset 42 of [longNote]. *)
Definition shownAt42 : World :=
  run asciiLower [CommandTrigger; Settle 1 (okBody think)]
      (initial cfg longNote 42).

(** The writer typed an exclamation mark at the end of [note]: the
    punctuation trigger has fired and the delay is running. *)
Definition waiting : World :=
  run asciiLower [Dispatch (typed (note ++ lit "!") 27 (lit "!"))] start.

(** The writer typed a letter, then ran the trigger command: a request
    is in flight while the idle timer of the edit is still armed. *)
Definition typedThenRequested : World :=
  run asciiLower [Dispatch (typed (note ++ lit "x") 27 (lit "x"));
                  CommandTrigger] start.

End Samples.

(* ===================================================================== *)
(** * Notions the further properties are stated in *)
(* ===================================================================== *)

Module Derived.
Import JS Types Context Provider Engine.

(** The [headings] array of [extractHeadingTrail] after its loop, top
    (last element) first. *)
Definition headingStack (doc : jsstring) (cursorPosition : Z)
  : list (nat * jsstring) :=
  fold_left headingStep (splitOn newline (slice doc 0 cursorPosition)) [].

(** Levels grow strictly from the bottom of the stack to its top, and
    each is a heading level. *)
Fixpoint nested (headings : list (nat * jsstring)) : Prop :=
  match headings with
  | [] => True
  | (l, _) :: below =>
      (1 <= l <= 6)%nat
      /\ match below with
         | [] => True
         | (l', _) :: _ => (l' < l)%nat
         end
      /\ nested below
  end.

Definition isQueueTimer (t : nat * TimerKind) : bool :=
  match snd t with QueueTimer => true | IdleTimer => false end.

Definition isIdleTimer (t : nat * TimerKind) : bool :=
  match snd t with IdleTimer => true | QueueTimer => false end.

(** The live delay timers and the live idle timers, by id. *)
Definition queueIds (ts : list (nat * TimerKind)) : list nat :=
  List.map fst (filter isQueueTimer ts).

Definition idleIds (ts : list (nat * TimerKind)) : list nat :=
  List.map fst (filter isIdleTimer ts).

Definition held (t : option nat) : list nat :=
  match t with Some id => [id] | None => [] end.

(** The live timers are exactly the ones whose handles the machine and
    the plugin hold, and a delay timer is live exactly in phase
    [queued]. *)
Definition timersTracked (w : World) : Prop :=
  queueIds (timeouts (host w)) = held (queueTimer (machine w))
  /\ idleIds (timeouts (host w)) = held (idleTimer (plugin w))
  /\ (forall id,
        In id (held (queueTimer (machine w)) ++ held (idleTimer (plugin w))) ->
        (id < nextId (host w))%nat)
  /\ (forall id, queueTimer (machine w) = Some id ->
                 idleTimer (plugin w) = Some id -> False)
  /\ (phase w = queued <-> queueTimer (machine w) <> None).

(** An overlay sits at the cursor and shows a non-empty text. *)
Definition anchored (w : World) : Prop :=
  match overlay w with
  | Some (text, position) => position = head (view w) /\ text <> []
  | None => True
  end.

(** Where an edit leaves the engine: nothing shown, the idle countdown
    running, and the phase [idle], or [queued] when an immediate trigger
    fired. *)
Definition afterEdit (w : World) : Prop :=
  (phase w = idle \/ phase w = queued)
  /\ overlay w = None
  /\ idleTimer (plugin w) <> None.

(** [m] takes every world of [P] to a world of [Q]. *)
Definition establishes {A} (P Q : World -> Prop) (m : M A) : Prop :=
  forall w, P w -> Q (snd (m w)).

(** Not disabled and nothing shown: where the plugin finds the engine
    when the document has changed. *)
Definition unshown (w : World) : Prop :=
  phase w <> disabled /\ overlay w = None.

(** After [cancelQueue]. *)
Definition calm (w : World) : Prop := phase w = idle /\ overlay w = None.

(** What [complete] resolves to for the suspended call [id] when the
    network answers [net]; [None] when no such call is suspended. *)
Definition resolution (toLowerCase : jsstring -> jsstring) (w : World)
  (id : nat) (net : Outcome Response) : option (option jsstring) :=
  match find (fun p => Nat.eqb (rid p) id) (pending (host w)) with
  | None => None
  | Some p =>
      match started p with
      | Resolved r => Some r
      | AwaitingFetch =>
          match fst (completeFinish toLowerCase (settings w)
                       (if signalled id (aiProvider w)
                        then Throws AbortError else net)
                       (aiProvider w)) with
          | Returns r => Some r
          | Throws _ => None
          end
      end
  end.



End Derived.

(* ===================================================================== *)
(** * Further sample documents and edits *)
(* ===================================================================== *)

Module Cases.
Import JS Types Context Provider Engine Samples.


(** The context of a request made at the end of [note]. *)
Definition atEnd : CompletionContext :=
  mkCompletionContext (extractContext (mkEditorState note 26 None) 1500 true)
                      ModeAuto.

(** A response body whose first choice has content [t]. *)
Definition firstChoice (t : jsstring) : json :=
  JObject [(lit "choices",
     JArray [JObject [(lit "message",
       JObject [(lit "content", JString t)])]])].

Definition okResponse (t : jsstring) : Response :=
  mkResponse true 200 (Returns []) (Returns (firstChoice t)).



End Cases.

(* ===================================================================== *)
(** * Proof automation *)
(* ===================================================================== *)

Ltac split_ifs :=
  repeat match goal with
         | |- context [if ?b then _ else _] => destruct b eqn:?
         end.

(** Counting what a provider did, when [effects] is an explicit list. *)
Ltac count_effects :=
  unfold Provider.fetches, Provider.errorsLogged; cbn;
  rewrite ?filter_app, ?length_app; cbn; try lia; try reflexivity.

Ltac destruct_world w :=
  destruct w as [[wd wh wg] wdisp wset [wst wqt wcv wnt] [wctl weffs]
                 [wldl wit] [wtos wfr wpend wnid]].


(** Runs the engine's own definitions, and nothing below them: string
    searches, list filters and the provider's post-processing stay
    folded. *)
Ltac run_engine :=
  cbv beta iota zeta delta
    [Engine.exec Engine.trigger Engine.manualTrigger Engine.cancelQueue
     Engine.dismiss Engine.disable Engine.enable Engine.updateSettings
     Engine.queueTimerFired Engine.idleTimerFired Engine.predict
     Engine.predictResume Engine.setState Engine.stateIs Engine.getState
     Engine.startQueueTimer Engine.cancelQueueTimer Engine.setQueueTimer
     Engine.abortProvider Engine.clearSuggestion Engine.showSuggestion
     Engine.hasSuggestion Engine.dispatchEffect Engine.setView
     Engine.requestAnimationFrame Engine.setTimeout Engine.clearTimeout
     Engine.setIdleTimer Engine.clearIdleTimer Engine.resetIdleTimer
     Engine.when Engine.bind Engine.ret Engine.gets Engine.modify
     Engine.phase Engine.overlay Engine.capturedCursor Engine.eligible
     Engine.overlayAccounted Engine.quiet Engine.isDisabled Engine.preserves
     Engine.setView_ Engine.setMachine Engine.setProvider Engine.setPlugin
     Engine.setHost Engine.setSettings Engine.ghostTextUpdate
     Engine.pluginUpdate Engine.dispatchUser Engine.timeoutFired
     Engine.animationFrame Engine.escapeKey Engine.checkTriggers
     Engine.settle Engine.step
     Engine.view Engine.dispatched Engine.settings Engine.machine
     Engine.aiProvider Engine.plugin Engine.host
     Engine.state Engine.queueTimer Engine.currentView Engine.notified
     Engine.lastDocLength Engine.idleTimer
     Engine.timeouts Engine.frames Engine.pending Engine.nextId
     Engine.rid Engine.context Engine.started
     Engine.docChanged Engine.selectionSet Engine.isInputType Engine.inserted
     Engine.trDocChanged Engine.trDoc Engine.trSelection Engine.trHead
     Engine.trInputType Engine.trInserted
     Context.doc Context.head Context.ghost
     Provider.abort Provider.completeStart Provider.bind Provider.ret
     Provider.getController Provider.setController Provider.emit
     Provider.abortController Provider.effects
     Types.SuggestionState_eqb
     fst snd negb andb orb fold_left].

(* ===================================================================== *)
(** * Facts about the string primitives *)
(* ===================================================================== *)

Section StringFacts.
Import JS.

Lemma length_nonneg (s : jsstring) : 0 <= length s.
Proof. unfold length. lia. Qed.

Lemma relIndex_range (len i : Z) :
  0 <= len -> 0 <= relIndex len i <= len.
Proof. unfold relIndex. destruct (i <? 0) eqn:E; lia. Qed.

Lemma relIndex_inside (len i : Z) :
  0 <= i -> relIndex len i = Z.min i len.
Proof.
  intros Hi. unfold relIndex.
  destruct (i <? 0) eqn:E; [apply Z.ltb_lt in E; lia | reflexivity].
Qed.

(** A slice is no longer than the distance between its normalised ends. *)
Lemma length_slice (s : jsstring) (a b : Z) :
  length (slice s a b)
  <= Z.max 0 (relIndex (length s) b - relIndex (length s) a).
Proof.
  unfold slice, length. rewrite length_firstn. lia.
Qed.

Lemma length_slice_le (s : jsstring) (a b : Z) :
  length (slice s a b) <= length s.
Proof.
  pose proof (length_slice s a b) as H.
  pose proof (length_nonneg s) as Hs.
  pose proof (relIndex_range (length s) a Hs).
  pose proof (relIndex_range (length s) b Hs).
  lia.
Qed.

Lemma length_sliceFrom_le (s : jsstring) (a : Z) :
  length (sliceFrom s a) <= length s.
Proof. apply length_slice_le. Qed.

Lemma sliceFrom_1_cons (c : N) (s : jsstring) : sliceFrom (c :: s) 1 = s.
Proof.
  unfold sliceFrom, slice, relIndex, length.
  cbn [List.length].
  replace (1 <? 0) with false by reflexivity.
  destruct (Z.of_nat (S (List.length s)) <? 0) eqn:E;
    [apply Z.ltb_lt in E; lia |].
  replace (Z.to_nat (Z.min 1 (Z.of_nat (S (List.length s))))) with 1%nat by lia.
  cbn [skipn].
  replace (Z.to_nat _) with (List.length s) by lia.
  apply firstn_all.
Qed.

End StringFacts.

(* ===================================================================== *)
(** * Context extraction *)
(* ===================================================================== *)

Section ContextWindow.
Import JS Context Samples.

Lemma prefix_within_budget (v : EditorState) (B : Z) (trail : bool) :
  0 <= B -> 0 <= head v ->
  length (prefix (extractContext v B trail)) <= B.
Proof.
  intros HB Hh. unfold extractContext. cbn [prefix].
  set (start := Z.max 0 (head v - B)).
  set (prefix0 := slice (doc v) start (head v)).
  assert (H0 : length prefix0 <= B).
  { subst prefix0.
    pose proof (length_slice (doc v) start (head v)) as H.
    rewrite (relIndex_inside _ (head v)) in H by assumption.
    rewrite (relIndex_inside _ start) in H by (subst start; lia).
    subst start. lia. }
  destruct (0 <? start); [|exact H0].
  destruct ((0 <? indexOf prefix0 [newline])
            && (indexOf prefix0 [newline] <? 100)); [|exact H0].
  pose proof (length_sliceFrom_le prefix0 (indexOf prefix0 [newline] + 1)).
  lia.
Qed.

Lemma suffix_within_budget (v : EditorState) (B : Z) (trail : bool) :
  0 <= B -> 0 <= head v ->
  length (suffix (extractContext v B trail)) <= B / 3.
Proof.
  intros HB Hh. unfold extractContext. cbn [suffix].
  set (stop := Z.min (length (doc v)) (head v + B / 3)).
  set (suffix0 := slice (doc v) (head v) stop).
  assert (Hq : 0 <= B / 3) by (apply Z.div_pos; lia).
  assert (H0 : length suffix0 <= B / 3).
  { subst suffix0.
    pose proof (length_slice (doc v) (head v) stop) as H.
    pose proof (length_nonneg (doc v)) as Hd.
    rewrite (relIndex_inside _ (head v)) in H by assumption.
    rewrite (relIndex_inside _ stop) in H by (subst stop; lia).
    subst stop. lia. }
  destruct (stop <? length (doc v)); [|exact H0].
  destruct (0 <? lastIndexOf suffix0 [newline]); [|exact H0].
  pose proof (length_slice_le suffix0 0 (lastIndexOf suffix0 [newline])).
  lia.
Qed.

(** C8. Context extraction is a function of the document, the cursor
    offset, the budget and the heading-trail flag alone: two views that
    agree on document and cursor, whatever else they hold, yield the same
    (prefix, suffix, headingTrail, cursorPosition).  For a budget [B >= 0]
    and a cursor offset [>= 0], the returned prefix is at most [B] long
    and the returned suffix at most [floor(B/3)], after boundary
    trimming. *)
Theorem extractContext_pure_and_bounded
  (v v' : EditorState) (B : Z) (trail : bool) :
  0 <= B -> 0 <= head v ->
  doc v' = doc v -> head v' = head v ->
  extractContext v' B trail = extractContext v B trail
  /\ length (prefix (extractContext v B trail)) <= B
  /\ length (suffix (extractContext v B trail)) <= B / 3.
Proof.
  intros HB Hh Hdoc Hhead. split; [|split].
  - unfold extractContext. rewrite Hdoc, Hhead. reflexivity.
  - apply prefix_within_budget; assumption.
  - apply suffix_within_budget; assumption.
Qed.

Lemma extractContext_pure_and_bounded_witness :
  extractContext (mkEditorState sampleDoc 18 (Some (lit "ghost", 18))) 9 true
  = extractContext (mkEditorState sampleDoc 18 None) 9 true
  /\ length (prefix (extractContext (mkEditorState sampleDoc 18 None) 9 true)) <= 9
  /\ length (suffix (extractContext (mkEditorState sampleDoc 18 None) 9 true)) <= 9 / 3.
Proof.
  apply (extractContext_pure_and_bounded
           (mkEditorState sampleDoc 18 None)
           (mkEditorState sampleDoc 18 (Some (lit "ghost", 18))) 9 true);
    cbn; try lia; reflexivity.
Defined.

End ContextWindow.

(* ===================================================================== *)
(** * The completion requester *)
(* ===================================================================== *)

Section CasePolicy.
Import JS Types Provider.

Variable toLowerCase : jsstring -> jsstring.

(** What the proof takes from the host's [toLowerCase]: lower-casing a
    lower-cased string changes nothing, and the lower-casing of a
    one-unit string starts with a unit that is its own lower-casing. *)
Hypothesis toLowerCase_idem :
  forall s, toLowerCase (toLowerCase s) = toLowerCase s.
Hypothesis toLowerCase_first :
  forall c, exists l ls, toLowerCase [c] = l :: ls /\ toLowerCase [l] = [l].

Lemma transformCase_none (s : jsstring) :
  transformCase toLowerCase s CaseNone = s.
Proof.
  unfold transformCase. cbn [SuggestionCase_eqb].
  rewrite orb_true_r. reflexivity.
Qed.

Lemma transformCase_lower_idem (s : jsstring) :
  transformCase toLowerCase (transformCase toLowerCase s CaseLower) CaseLower
  = transformCase toLowerCase s CaseLower.
Proof.
  destruct s as [|c s]; [reflexivity|].
  unfold transformCase at 2. cbn [isEmpty SuggestionCase_eqb orb].
  unfold transformCase. cbn [SuggestionCase_eqb]. rewrite orb_false_r.
  destruct (isEmpty (toLowerCase (c :: s))); [reflexivity|].
  apply toLowerCase_idem.
Qed.

Lemma transformCase_firstLower_cons (c : N) (rest : jsstring) :
  transformCase toLowerCase (c :: rest) CaseFirstLower
  = if (length (c :: rest) =? 1)
       || match rest with
          | [] => true
          | secondChar :: _ => eqb [secondChar] (toLowerCase [secondChar])
          end
    then toLowerCase [c] ++ rest
    else c :: rest.
Proof.
  unfold transformCase. cbn [isEmpty SuggestionCase_eqb orb].
  rewrite sliceFrom_1_cons. reflexivity.
Qed.

Lemma transformCase_firstLower_idem (s : jsstring) :
  transformCase toLowerCase (transformCase toLowerCase s CaseFirstLower)
                CaseFirstLower
  = transformCase toLowerCase s CaseFirstLower.
Proof.
  destruct s as [|c rest]; [reflexivity|].
  rewrite (transformCase_firstLower_cons c rest).
  match goal with |- context [if ?b then _ else _] => destruct b eqn:Hcond end.
  - destruct (toLowerCase_first c) as (l & ls & Hc & Hl).
    rewrite Hc. cbn [app].
    rewrite transformCase_firstLower_cons, Hl.
    match goal with |- (if ?b then _ else _) = _ => destruct b end;
      reflexivity.
  - rewrite transformCase_firstLower_cons, Hcond. reflexivity.
Qed.

(** C9. The output case policy is idempotent: for every string and each
    of the three policies, transforming twice gives what transforming once
    gives. *)
Theorem transformCase_idempotent (s : jsstring) (p : SuggestionCase) :
  transformCase toLowerCase (transformCase toLowerCase s p) p
  = transformCase toLowerCase s p.
Proof.
  destruct p.
  - rewrite !transformCase_none. reflexivity.
  - apply transformCase_lower_idem.
  - apply transformCase_firstLower_idem.
Qed.

End CasePolicy.

Section AsciiLower.
Import JS Types Provider.

Lemma asciiLowerUnit_idem (u : N) :
  asciiLowerUnit (asciiLowerUnit u) = asciiLowerUnit u.
Proof.
  unfold asciiLowerUnit.
  destruct (N.leb 65 u && N.leb u 90)%N eqn:E; [|rewrite E; reflexivity].
  apply andb_true_iff in E. destruct E as [E1 E2].
  apply N.leb_le in E1, E2.
  replace (N.leb (u + 32) 90) with false; [rewrite andb_false_r; reflexivity|].
  symmetry. apply N.leb_gt. lia.
Qed.

Lemma asciiLower_idem (s : jsstring) :
  asciiLower (asciiLower s) = asciiLower s.
Proof.
  unfold asciiLower. rewrite map_map.
  apply map_ext. intro u. apply asciiLowerUnit_idem.
Qed.

Lemma asciiLower_first (c : N) :
  exists l ls, asciiLower [c] = l :: ls /\ asciiLower [l] = [l].
Proof.
  exists (asciiLowerUnit c), []. split; [reflexivity|].
  cbn. rewrite asciiLowerUnit_idem. reflexivity.
Qed.

Lemma transformCase_idempotent_witness :
  transformCase asciiLower
    (transformCase asciiLower (lit "List the Issues") CaseFirstLower)
    CaseFirstLower
  = transformCase asciiLower (lit "List the Issues") CaseFirstLower.
Proof.
  apply (transformCase_idempotent asciiLower asciiLower_idem asciiLower_first).
Defined.

End AsciiLower.

Section Requester.
Import JS Types Provider.

Variable toLowerCase : jsstring -> jsstring.

(** [abort] never throws, sends nothing and logs nothing. *)
Lemma abort_returns (a : AIProvider) :
  exists a', Provider.abort a = (Returns tt, a')
             /\ abortController a' = None
             /\ fetches a' = fetches a
             /\ errorsLogged a' = errorsLogged a.
Proof.
  destruct a as [[id|] es]; cbn; eexists; (split; [reflexivity|]);
    (split; [reflexivity|]); split; count_effects.
Qed.

(** The part of [complete] after [fetch] settles always returns, and
    leaves the provider without a controller. *)
Lemma completeFinish_returns (settings : Settings) (net : Outcome Response)
  (a : AIProvider) :
  exists r a', completeFinish toLowerCase settings net a = (Returns r, a')
               /\ abortController a' = None
               /\ fetches a' = fetches a.
Proof.
  destruct a as [c es].
  unfold completeFinish, tryCatchFinally, Provider.bind, await, emit,
    Provider.ret, setController.
  destruct net as [resp|e]; cbn;
    [ destruct (ok resp); cbn;
      [ destruct (bodyJson resp) as [data|e]; cbn;
        [ destruct (extractContent data) as [[[|u t]|]|e]; cbn |]
      | destruct (bodyText resp) as [t|e]; cbn ] |];
    split_ifs; cbn;
    do 2 eexists; (split; [reflexivity|]); cbn;
    (split; [reflexivity|]); count_effects.
Qed.

(** C7. [complete] never throws to its caller.  Whatever the settings,
    the context, the provider's state and the network's answer, the call
    returns; with the API key or the endpoint missing it sends no request
    and resolves to null; on a network error, a non-success response or a
    malformed body it resolves to null; on an abort it resolves to null
    and logs no error. *)
Theorem complete_never_throws (settings : Settings) (controller : nat)
  (context : CompletionContext) (net : Outcome Response) (a : AIProvider) :
  exists r a',
    complete toLowerCase settings controller context net a = (Returns r, a')
    /\ (configured settings = false -> r = None /\ fetches a' = fetches a)
    /\ (forall e, net = Throws e -> r = None)
    /\ (net = Throws AbortError -> r = None /\ errorsLogged a' = errorsLogged a)
    /\ (forall resp, net = Returns resp -> ok resp = false -> r = None)
    /\ (forall resp, net = Returns resp -> malformedBody resp = true -> r = None).
Proof.
  destruct a as [c es].
  unfold configured, complete, completeStart, completeFinish, tryCatchFinally,
    Provider.bind, Provider.abort, getController, await, emit, Provider.ret,
    setController.
  destruct (isEmpty (apiKey settings) || isEmpty (apiEndpoint settings));
    destruct c as [id|]; cbn.
  1, 2: do 2 eexists; (split; [reflexivity|]);
        repeat split; intros; try reflexivity; count_effects.
  all: destruct net as [resp|e]; cbn;
    [ destruct (ok resp) eqn:Hok; cbn;
      [ unfold malformedBody;
        destruct (bodyJson resp) as [data|e] eqn:Hjson; cbn;
        [ destruct (extractContent data) as [[[|u t]|]|e] eqn:Hdata; cbn |]
      | destruct (bodyText resp) as [t|e]; cbn ]
    | destruct e as [[|] nm] ];
    cbn; split_ifs; cbn;
    do 2 eexists; (split; [reflexivity|]);
    repeat split; intros; try reflexivity; try discriminate;
    repeat match goal with
           | H : Returns _ = Returns _ |- _ => inversion H; subst; clear H
           | H : Throws _ = Throws _ |- _ => inversion H; subst; clear H
           end;
    try congruence;
    try match goal with
        | H : match bodyJson ?r with _ => _ end = true,
          Hj : bodyJson ?r = _ |- _ =>
            rewrite Hj in H; try discriminate;
            match goal with
            | Hd : extractContent _ = _ |- _ => rewrite Hd in H; discriminate
            end
        end;
    try match goal with
        | H : eqb _ _ = false |- _ => vm_compute in H; discriminate
        end;
    try count_effects.
Qed.

End Requester.

(* ===================================================================== *)
(** * The lifecycle engine *)
(* ===================================================================== *)

Section EngineFacts.
Import JS Types Context Provider Engine.

Variable toLowerCase : jsstring -> jsstring.

Arguments slice : simpl never.
Arguments indexOfFrom : simpl never.
Arguments indexOf : simpl never.
Arguments lastIndexOf : simpl never.
Arguments includes : simpl never.
Arguments JS.length : simpl never.
Arguments isInCodeBlock : simpl never.
Arguments isInFrontmatter : simpl never.
Arguments extractContext : simpl never.
Arguments lineFrom : simpl never.
Arguments lineTo : simpl never.
Arguments completeFinish : simpl never.
Arguments buildRequest : simpl never.

(** ** What [disabled] lets through *)

Lemma trigger_disabled (w : World) :
  phase w = disabled -> exec trigger w = w.
Proof. destruct_world w. cbn. intros ->. reflexivity. Qed.

Lemma manualTrigger_disabled (w : World) :
  phase w = disabled -> exec manualTrigger w = w.
Proof. destruct_world w. cbn. intros ->. reflexivity. Qed.

Lemma cancelQueue_disabled (w : World) :
  phase w = disabled -> exec cancelQueue w = w.
Proof. destruct_world w. cbn. intros ->. reflexivity. Qed.

Lemma dismiss_disabled (w : World) :
  phase w = disabled -> exec dismiss w = w.
Proof. destruct_world w. cbn. intros ->. reflexivity. Qed.

Lemma enable_disabled (w : World) :
  phase w = disabled -> phase (exec enable w) = idle.
Proof. destruct_world w. cbn. intros ->. reflexivity. Qed.

Lemma updateSettings_enabled_disabled (w : World) (s : Settings) :
  phase w = disabled -> enabled s = true ->
  phase (exec (updateSettings s) w) = idle.
Proof.
  destruct_world w. cbn. intros -> Hs. run_engine. rewrite Hs. reflexivity.
Qed.

Lemma updateSettings_off_disabled (w : World) (s : Settings) :
  phase w = disabled -> enabled s = false ->
  phase (exec (updateSettings s) w) = disabled.
Proof.
  destruct_world w. cbn. intros -> Hs. run_engine. rewrite Hs. reflexivity.
Qed.

(** ** Composing preservation *)

Lemma preserves_ret {A} (P : World -> Prop) (a : A) :
  preserves P (Engine.ret a).
Proof. intros w H. exact H. Qed.

Lemma preserves_gets {A} (P : World -> Prop) (f : World -> A) :
  preserves P (gets f).
Proof. intros w H. exact H. Qed.

Lemma preserves_bind {A B} (P : World -> Prop) (m : M A) (k : A -> M B) :
  preserves P m -> (forall a, preserves P (k a)) ->
  preserves P (Engine.bind m k).
Proof.
  intros Hm Hk w H. unfold Engine.bind.
  specialize (Hm w H). destruct (m w) as [a w']. cbn in Hm.
  apply Hk. exact Hm.
Qed.

Lemma preserves_when (P : World -> Prop) (b : bool) (m : M unit) :
  preserves P m -> preserves P (when b m).
Proof. intros Hm. destruct b; [exact Hm | apply preserves_ret]. Qed.

Lemma preserves_forEach {A} (P : World -> Prop) (l : list A)
  (f : A -> M unit) :
  (forall x, preserves P (f x)) -> preserves P (forEach l f).
Proof.
  intros Hf. induction l as [|x l IH]; cbn [forEach].
  - apply preserves_ret.
  - apply preserves_bind; [apply Hf | intros _; exact IH].
Qed.

(** ** The overlay is accounted for *)

Ltac split_world w :=
  destruct w as [[wd wh [[wt wp]|]] wdisp wset [[| | | |] [wqt|] wcv wnt]
                 [[wctl|] weffs] [wldl [wit|]] [wtos [|wfr] wpend wnid]];
  run_engine.


(** The same for a property that is an equation on the world. *)
Ltac by_cases_eq w :=
  intros w; split_world w; intros ?; try discriminate; split_ifs; run_engine;
  try reflexivity; try assumption.





























(** ** Disabled stays disabled *)

Lemma cancelQueue_keeps_disabled : preserves isDisabled cancelQueue.
Proof. unfold isDisabled. by_cases_eq w. Qed.

Lemma trigger_keeps_disabled : preserves isDisabled trigger.
Proof. unfold isDisabled. by_cases_eq w. Qed.

Lemma dismiss_keeps_disabled : preserves isDisabled dismiss.
Proof. unfold isDisabled. by_cases_eq w. Qed.

Lemma resetIdleTimer_keeps_disabled : preserves isDisabled resetIdleTimer.
Proof. unfold isDisabled. by_cases_eq w. Qed.

Lemma setView_keeps_disabled : preserves isDisabled setView.
Proof. unfold isDisabled. by_cases_eq w. Qed.

Lemma clearSuggestion_keeps_disabled : preserves isDisabled clearSuggestion.
Proof. unfold isDisabled. by_cases_eq w. Qed.

Lemma clearTimeout_keeps_disabled (id : nat) :
  preserves isDisabled (clearTimeout id).
Proof. unfold isDisabled. by_cases_eq w. Qed.

Lemma queueTimerFired_keeps_disabled : preserves isDisabled queueTimerFired.
Proof. unfold isDisabled. by_cases_eq w. Qed.

Lemma manualTrigger_keeps_disabled : preserves isDisabled manualTrigger.
Proof. unfold isDisabled. by_cases_eq w. Qed.

Lemma animationFrame_keeps_disabled : preserves isDisabled animationFrame.
Proof. unfold isDisabled. by_cases_eq w. Qed.

Lemma escapeKey_keeps_disabled : preserves isDisabled escapeKey.
Proof. unfold isDisabled. by_cases_eq w. Qed.

Lemma predictResume_keeps_disabled (c : CompletionContext)
  (r : option jsstring) : preserves isDisabled (predictResume c r).
Proof. unfold isDisabled. destruct r as [[|u t]|]; by_cases_eq w. Qed.

Lemma checkTriggers_keeps_disabled (u : ViewUpdate) (s : Settings) :
  preserves isDisabled (checkTriggers u s).
Proof.
  unfold checkTriggers.
  apply preserves_bind; [apply preserves_gets | intros d].
  apply preserves_bind; [apply preserves_gets | intros pos].
  match goal with |- preserves _ (if ?b then _ else _) => destruct b end;
    [apply trigger_keeps_disabled|].
  do 2 apply preserves_when.
  apply preserves_forEach. intros x.
  apply preserves_when, trigger_keeps_disabled.
Qed.

Lemma pluginUpdate_keeps_disabled (u : ViewUpdate) :
  preserves isDisabled (pluginUpdate u).
Proof.
  unfold pluginUpdate.
  apply preserves_bind; [apply preserves_gets | intros s].
  apply preserves_bind; [apply setView_keeps_disabled | intros _].
  destruct (negb (enabled s)); [apply preserves_ret|].
  destruct (manualTriggerOnly s); [apply preserves_ret|].
  apply preserves_bind;
    [|intros _; apply preserves_when, dismiss_keeps_disabled].
  apply preserves_when.
  apply preserves_bind; [apply preserves_gets | intros newLength].
  apply preserves_bind; [apply preserves_gets | intros last].
  apply preserves_bind; [intros w H; exact H | intros _].
  apply preserves_bind; [apply cancelQueue_keeps_disabled | intros _].
  apply preserves_bind; [apply resetIdleTimer_keeps_disabled | intros _].
  apply preserves_when, checkTriggers_keeps_disabled.
Qed.

Lemma dispatchUser_keeps_disabled (tr : Transaction) :
  preserves isDisabled (dispatchUser tr).
Proof.
  unfold dispatchUser.
  apply preserves_bind; [intros w H; exact H | intros _].
  apply pluginUpdate_keeps_disabled.
Qed.

Lemma timeoutFired_keeps_disabled (id : nat) :
  preserves isDisabled (timeoutFired id).
Proof.
  unfold timeoutFired.
  apply preserves_bind; [apply preserves_gets | intros ts].
  destruct (find _ ts) as [[? kind]|]; [|apply preserves_ret].
  apply preserves_bind; [apply clearTimeout_keeps_disabled | intros _].
  destruct kind; [apply queueTimerFired_keeps_disabled|].
  unfold idleTimerFired.
  apply preserves_bind; [intros w H; exact H | intros _].
  apply preserves_bind; [apply preserves_gets | intros s].
  apply preserves_when, trigger_keeps_disabled.
Qed.

Lemma settle_keeps_disabled (id : nat) (net : Outcome Response) :
  preserves isDisabled (settle toLowerCase id net).
Proof.
  unfold settle.
  apply preserves_bind; [apply preserves_gets | intros ps].
  destruct (find _ ps) as [p|]; [|apply preserves_ret].
  apply preserves_bind; [intros w H; exact H | intros _].
  destruct (started p) as [r|].
  - apply predictResume_keeps_disabled.
  - intros w Hw.
    destruct (completeFinish toLowerCase (settings w) _ (aiProvider w))
      as [[r|e] a'].
    + apply predictResume_keeps_disabled. exact Hw.
    + exact Hw.
Qed.

(** C10.  [disabled] is absorbing under every operation except
    enabling.  From phase [disabled], [trigger], [manualTrigger],
    [cancelQueue] and [dismiss] change nothing at all (so neither the
    phase nor the overlay); [enable], and [updateSettings] with [enabled]
    true, move the phase to [idle]; and of all the events the host can
    deliver, only saving settings whose [enabled] is true leaves
    [disabled]. *)
Theorem disabled_is_absorbing (w : World) :
  phase w = disabled ->
  exec trigger w = w
  /\ exec manualTrigger w = w
  /\ exec cancelQueue w = w
  /\ exec dismiss w = w
  /\ phase (exec enable w) = idle
  /\ (forall s, enabled s = true -> phase (exec (updateSettings s) w) = idle)
  /\ (forall s, enabled s = false ->
        phase (exec (updateSettings s) w) = disabled)
  /\ (forall e,
        phase (exec (step toLowerCase e) w) = disabled
        \/ (e = SettingsSaved /\ enabled (settings w) = true
            /\ phase (exec (step toLowerCase e) w) = idle)).
Proof.
  intros Hd.
  split; [apply trigger_disabled, Hd|].
  split; [apply manualTrigger_disabled, Hd|].
  split; [apply cancelQueue_disabled, Hd|].
  split; [apply dismiss_disabled, Hd|].
  split; [apply enable_disabled, Hd|].
  split; [intros s Hs; apply updateSettings_enabled_disabled; assumption|].
  split; [intros s Hs; apply updateSettings_off_disabled; assumption|].
  intros e.
  destruct e as [tr|id| |id net| | | |s| ]; cbn [step].
  - left. apply dispatchUser_keeps_disabled, Hd.
  - left. apply timeoutFired_keeps_disabled, Hd.
  - left. apply animationFrame_keeps_disabled, Hd.
  - left. apply settle_keeps_disabled, Hd.
  - left. apply manualTrigger_keeps_disabled, Hd.
  - left. apply dismiss_keeps_disabled, Hd.
  - left. apply escapeKey_keeps_disabled, Hd.
  - left. exact Hd.
  - destruct (enabled (settings w)) eqn:Hs.
    + right. split; [reflexivity|]. split; [reflexivity|].
      unfold exec, Engine.bind, gets. cbn [fst snd].
      apply updateSettings_enabled_disabled; assumption.
    + left. unfold exec, Engine.bind, gets. cbn [fst snd].
      apply updateSettings_off_disabled; assumption.
Qed.

(** ** Request resolution *)

Lemma extractContext_cursor (v : EditorState) (B : Z) (trail : bool) :
  cursorPosition (extractContext v B trail) = head v.
Proof. reflexivity. Qed.

(** What [predictResume] does when the captured offset is no longer the
    cursor's. *)
Lemma predictResume_moved (c : CompletionContext) (r : option jsstring)
  (w : World) :
  cursorPosition (contextData c) <> head (view w) ->
  dispatched (exec (predictResume c r) w) = dispatched w
  /\ overlay (exec (predictResume c r) w) = overlay w
  /\ phase (exec (predictResume c r) w)
     = match phase w with predicting => idle | st => st end.
Proof.
  intros Hne.
  assert (Heq : (head (view w) =? cursorPosition (contextData c)) = false)
    by (apply Z.eqb_neq; congruence).
  revert Heq. clear Hne. split_world w; intros Heq;
    destruct r as [[|u t]|]; run_engine; rewrite ?Heq; run_engine;
    repeat split.
Qed.

(** C3, as amended.  When the request of a suspended call settles and
    the cursor offset captured with its context differs from the live
    cursor offset, then, whatever the response carries (suggestion text
    included), nothing is dispatched to the view (so [showSuggestion] is
    not called), the overlay is what it was, and the phase never becomes
    [suggesting] on its account: it goes to [idle] when the engine is in
    [predicting], and stays what it is otherwise. *)
Theorem moved_cursor_result_never_shown
  (w : World) (id : nat) (net : Outcome Response) (c : Z) :
  capturedCursor w id = Some c ->
  c <> head (view w) ->
  dispatched (exec (settle toLowerCase id net) w) = dispatched w
  /\ overlay (exec (settle toLowerCase id net) w) = overlay w
  /\ phase (exec (settle toLowerCase id net) w)
     = match phase w with predicting => idle | st => st end.
Proof.
  unfold capturedCursor, settle, exec, Engine.bind, gets, modify.
  cbn [fst snd].
  destruct (find _ (pending (host w))) as [p|]; [|discriminate].
  intros [= Hc] Hne. subst c.
  set (w1 := setHost _ w).
  assert (H1 : cursorPosition (contextData (context p)) <> head (view w1))
    by exact Hne.
  destruct (started p) as [r|].
  - apply (predictResume_moved (context p) r w1 H1).
  - match goal with
    | |- context [completeFinish toLowerCase ?s ?n ?a] =>
        destruct (completeFinish_returns toLowerCase s n a)
          as (r & a' & Hfin & _);
        rewrite Hfin
    end.
    apply (predictResume_moved (context p) r (setProvider a' w1) H1).
Qed.

(** ** Triggers *)

(** C4, as amended.  [trigger] called in phase [predicting], with
    automatic triggering permitted and the cursor in an eligible region,
    cancels the in-flight request, moves the phase to [queued] and starts
    the delay timer: no request is issued by the call.  The request is
    issued anew when that timer fires, and only then does the phase return
    to [predicting]. *)
Theorem trigger_while_predicting_requeues (w : World) :
  phase w = predicting ->
  manualTriggerOnly (settings w) = false ->
  eligible w = true ->
  phase (exec trigger w) = queued
  /\ aiProvider (exec trigger w) = snd (Provider.abort (aiProvider w))
  /\ pending (host (exec trigger w)) = pending (host w)
  /\ queueTimer (machine (exec trigger w)) = Some (nextId (host w))
  /\ timeouts (host (exec trigger w))
     = timeouts (host w) ++ [(nextId (host w), QueueTimer)]
  /\ phase (exec queueTimerFired (exec trigger w)) = predicting
  /\ exists p,
       pending (host (exec queueTimerFired (exec trigger w)))
       = pending (host w) ++ [p]
       /\ rid p = S (nextId (host w)).
Proof.
  split_world w; intros Hp Hm He; try discriminate Hp;
    rewrite Hm;
    destruct (isInCodeBlock wd wh), (isInFrontmatter wd wh);
    try discriminate He; run_engine; split_ifs;
    repeat (split; [reflexivity|]); eexists; split; reflexivity.
Qed.

(** C6, as amended.  [manualTrigger] is refused in phase [disabled]
    (that is C10) and, in every other phase, when the cursor is inside a
    fenced code region or a front-matter block: it then changes neither
    phase, overlay, timers, requests, provider nor plugin.  Otherwise,
    manual-only flag set or not, it clears the delay timer the machine
    holds and no other timer, the trigger plugin and its idle timer being
    left as they are; it signals abort through the controller the
    provider holds, if it holds one, and to no other request; it clears
    the overlay if the phase is [suggesting] and leaves it otherwise; it
    enters [predicting] and at once calls the requester with the context
    captured at the cursor; the requester sends the request when it is
    configured. *)
Theorem manualTrigger_refused_or_predicts (w : World) :
  phase w <> disabled ->
  if eligible w then
    phase (exec manualTrigger w) = predicting
    /\ queueTimer (machine (exec manualTrigger w)) = None
    /\ timeouts (host (exec manualTrigger w))
       = match queueTimer (machine w) with
         | Some id =>
             filter (fun t => negb (Nat.eqb (fst t) id)) (timeouts (host w))
         | None => timeouts (host w)
         end
    /\ plugin (exec manualTrigger w) = plugin w
    /\ (forall c, abortController (aiProvider w) = Some c ->
          signalled c (aiProvider (exec manualTrigger w)) = true)
    /\ (forall c, abortController (aiProvider w) <> Some c ->
          signalled c (aiProvider (exec manualTrigger w))
          = signalled c (aiProvider w))
    /\ overlay (exec manualTrigger w)
       = match phase w with suggesting => None | _ => overlay w end
    /\ (exists p,
          pending (host (exec manualTrigger w)) = pending (host w) ++ [p]
          /\ rid p = nextId (host w)
          /\ cursorPosition (contextData (context p)) = head (view w)
          /\ started p = if configured (settings w) then AwaitingFetch
                         else Resolved None)
    /\ fetches (aiProvider (exec manualTrigger w))
       = if configured (settings w) then S (fetches (aiProvider w))
         else fetches (aiProvider w)
  else
    phase (exec manualTrigger w) = phase w
    /\ overlay (exec manualTrigger w) = overlay w
    /\ host (exec manualTrigger w) = host w
    /\ aiProvider (exec manualTrigger w) = aiProvider w
    /\ plugin (exec manualTrigger w) = plugin w
    /\ queueTimer (machine (exec manualTrigger w)) = queueTimer (machine w).
Proof.
  unfold configured.
  split_world w; intros Hp; try (exfalso; apply Hp; reflexivity);
    destruct (isInCodeBlock wd wh), (isInFrontmatter wd wh); run_engine;
    try (repeat split; reflexivity);
    destruct (isEmpty (apiKey wset)), (isEmpty (apiEndpoint wset));
    run_engine.
  all: repeat match goal with
       | |- _ /\ _ => split
       | |- forall c, _ = Some c -> _ => intros ? [= <-]
       | |- forall c, None = Some c -> _ => intros ? [=]
       | |- forall c, _ <> _ -> _ => intros c Hc
       | |- exists p, _ => eexists
       end; try reflexivity; try discriminate;
       try (unfold signalled; cbn [effects]; rewrite ?existsb_app; cbn;
            rewrite ?Nat.eqb_refl, ?orb_true_r; reflexivity);
       try count_effects.
  all: match goal with
       | Hc : Some ?x <> Some ?y |- _ =>
           unfold signalled; cbn [effects]; rewrite ?existsb_app; cbn;
           destruct (Nat.eqb_spec x y) as [->|];
           [exfalso; apply Hc; reflexivity | rewrite ?orb_false_r; reflexivity]
       | Hc : None <> Some _ |- _ =>
           unfold signalled; cbn [effects]; rewrite ?existsb_app; cbn;
           rewrite ?orb_false_r; reflexivity
       end.
Qed.

(** C5, as amended.  With the plugin enabled and not in manual-only
    mode, a pure cursor move (the selection set, the document unchanged)
    cancels nothing and starts nothing: timers, suspended requests and the
    provider are what they were.  In phase [suggesting] it moves the phase
    to [idle], and an overlay anchored elsewhere than the new cursor
    offset is cleared; in every other phase the phase stays what it is. *)
Theorem cursor_move_only_dismisses (w : World) (tr : Transaction) :
  enabled (settings w) = true ->
  manualTriggerOnly (settings w) = false ->
  trDocChanged tr = false ->
  trSelection tr = true ->
  phase (exec (dispatchUser tr) w)
  = match phase w with suggesting => idle | st => st end
  /\ (forall t p, overlay w = Some (t, p) -> p <> trHead tr ->
        overlay (exec (dispatchUser tr) w) = None)
  /\ timeouts (host (exec (dispatchUser tr) w)) = timeouts (host w)
  /\ pending (host (exec (dispatchUser tr) w)) = pending (host w)
  /\ aiProvider (exec (dispatchUser tr) w) = aiProvider w
  /\ queueTimer (machine (exec (dispatchUser tr) w)) = queueTimer (machine w)
  /\ idleTimer (plugin (exec (dispatchUser tr) w)) = idleTimer (plugin w)
  /\ head (view (exec (dispatchUser tr) w)) = trHead tr.
Proof.
  destruct tr as [tdc tdoc tsel th tin tins]. cbn [trDocChanged trSelection trHead].
  split_world w; intros He Hm -> ->; run_engine; rewrite He, Hm; run_engine.
  all: repeat split; try reflexivity.
  all: intros ? ? Ho Hne; try discriminate Ho; injection Ho as <- <-;
       apply Z.eqb_neq in Hne; rewrite Z.eqb_sym in Hne; rewrite Hne;
       reflexivity.
Qed.

End EngineFacts.

(* ===================================================================== *)
(** * Scenarios *)
(* ===================================================================== *)

Section Scenarios.
Import JS Types Context Provider Engine Samples.



(** In manual-only mode the trigger plugin returns before it looks at the
    update: an edit clears the overlay, and the phase stays [suggesting]. *)
Example manual_only_edit_leaves_suggesting :
  let w := run asciiLower
             [CommandTrigger; Settle 1 (okBody think);
              Dispatch (typed (note ++ lit "x") 27 (lit "x"))]
             (initial cfgManualOnly note 26) in
  overlay w = None /\ phase w = suggesting.
Proof. vm_compute. split; reflexivity. Qed.

(** C2 on the code.  The trigger command is run while its earlier
    request is in flight: the earlier request is signalled to abort and a
    second one is issued, the phase staying [predicting].  When the
    aborted request then settles, the engine takes it for the current
    one: the phase goes to [idle], the state-change callbacks are told so,
    and the provider drops the controller of the second request.  The
    second request's suggestion is then discarded; and, no longer
    abortable, it is committed over a third request when the command is
    run once more. *)
Theorem stale_resolution_moves_phase :
  (phase retriggered = predicting
   /\ List.map rid (pending (host retriggered)) = [1; 2]%nat
   /\ signalled 1 (aiProvider retriggered) = true
   /\ abortController (aiProvider retriggered) = Some 2%nat)
  /\ (phase staleSettled = idle
      /\ notified (machine staleSettled) = [predicting; idle]
      /\ abortController (aiProvider staleSettled) = None
      /\ List.map rid (pending (host staleSettled)) = [2]%nat)
  /\ (phase (run asciiLower [Settle 2 (okBody think)] staleSettled) = idle
      /\ overlay (run asciiLower [Settle 2 (okBody think)] staleSettled) = None)
  /\ (List.map rid (pending (host (run asciiLower [CommandTrigger] staleSettled)))
      = [2; 3]%nat
      /\ signalled 2 (aiProvider (run asciiLower [CommandTrigger] staleSettled))
         = false
      /\ phase (run asciiLower [CommandTrigger; Settle 2 (okBody think)]
                    staleSettled) = suggesting
      /\ overlay (run asciiLower [CommandTrigger; Settle 2 (okBody think)]
                      staleSettled) = Some (think, 26)
      /\ List.map rid (pending (host (run asciiLower
                         [CommandTrigger; Settle 2 (okBody think)]
                         staleSettled))) = [3]%nat).
Proof. vm_compute. repeat split; reflexivity. Qed.

Lemma moved_cursor_result_never_shown_witness :
  let w := run asciiLower [Dispatch (moveTo 3)] requested in
  capturedCursor w 1 = Some 26
  /\ 26 <> head (view w)
  /\ phase w = predicting
  /\ dispatched (exec (settle asciiLower 1 (okBody think)) w) = dispatched w
  /\ overlay (exec (settle asciiLower 1 (okBody think)) w) = overlay w
  /\ phase (exec (settle asciiLower 1 (okBody think)) w) = idle.
Proof.
  cbv zeta.
  assert (Hc : capturedCursor (run asciiLower [Dispatch (moveTo 3)] requested) 1
               = Some 26) by (vm_compute; reflexivity).
  assert (Hn : 26 <> head (view (run asciiLower [Dispatch (moveTo 3)] requested)))
    by (vm_compute; discriminate).
  assert (Hp : phase (run asciiLower [Dispatch (moveTo 3)] requested) = predicting)
    by (vm_compute; reflexivity).
  destruct (moved_cursor_result_never_shown asciiLower _ 1 (okBody think) 26
              Hc Hn) as (H1 & H2 & H3).
  rewrite Hp in H3.
  repeat split; assumption.
Defined.

(** C3, as the claim states it, fails.  A request that can no longer be
    aborted (the second of [retriggered], after the first has settled)
    outlives the phase [predicting]: the writer types on, which queues a
    new trigger, and the request then resolves with text, the cursor
    having moved from 26 to 27.  Nothing is shown, but the phase stays
    [queued]; it does not go to [idle]. *)
Lemma moved_cursor_result_phase_not_idle :
  capturedCursor typedOn 2 = Some 26
  /\ head (view typedOn) = 27
  /\ fst (completeFinish asciiLower (settings typedOn) (okBody think)
                         (aiProvider typedOn)) = Returns (Some think)
  /\ signalled 2 (aiProvider typedOn) = false
  /\ phase typedOn = queued
  /\ phase (exec (settle asciiLower 2 (okBody think)) typedOn) = queued
  /\ phase (exec (settle asciiLower 2 (okBody think)) typedOn) <> idle.
Proof. vm_compute. repeat split; try reflexivity. discriminate. Qed.

Lemma trigger_while_predicting_requeues_witness :
  phase requested = predicting
  /\ phase (exec trigger requested) = queued
  /\ pending (host (exec trigger requested)) = pending (host requested)
  /\ signalled 1 (aiProvider (exec trigger requested)) = true
  /\ phase (exec queueTimerFired (exec trigger requested)) = predicting.
Proof.
  assert (Hp : phase requested = predicting) by (vm_compute; reflexivity).
  assert (Hm : manualTriggerOnly (settings requested) = false)
    by (vm_compute; reflexivity).
  assert (He : eligible requested = true) by (vm_compute; reflexivity).
  destruct (trigger_while_predicting_requeues requested Hp Hm He)
    as (H1 & H2 & H3 & _ & _ & H6 & _).
  split; [exact Hp|]. split; [exact H1|]. split; [exact H3|].
  split; [rewrite H2; vm_compute; reflexivity | exact H6].
Defined.

(** C4, as the claim states it, fails.  A request is in flight when the
    idle timer of the last edit fires and calls [trigger]: the request is
    aborted, no new one is issued, and the engine is back in [queued],
    waiting a fresh delay. *)
Lemma trigger_while_predicting_leaves_predicting :
  phase typedThenRequested = predicting
  /\ manualTriggerOnly (settings typedThenRequested) = false
  /\ eligible typedThenRequested = true
  /\ timeouts (host typedThenRequested) = [(1%nat, IdleTimer)]
  /\ phase (run asciiLower [Timeout 1] typedThenRequested) = queued
  /\ phase (run asciiLower [Timeout 1] typedThenRequested) <> predicting
  /\ pending (host (run asciiLower [Timeout 1] typedThenRequested))
     = pending (host typedThenRequested)
  /\ timeouts (host (run asciiLower [Timeout 1] typedThenRequested))
     = [(3%nat, QueueTimer)]
  /\ phase (exec trigger typedThenRequested) = queued.
Proof. vm_compute. repeat split; try reflexivity. discriminate. Qed.

(** The scenario of the specification: a suggestion shown at offset 42,
    the cursor moved to offset 10 without editing. *)
Lemma cursor_move_only_dismisses_witness :
  phase shownAt42 = suggesting
  /\ overlay shownAt42 = Some (think, 42)
  /\ phase (exec (dispatchUser (moveTo 10)) shownAt42) = idle
  /\ overlay (exec (dispatchUser (moveTo 10)) shownAt42) = None
  /\ timeouts (host (exec (dispatchUser (moveTo 10)) shownAt42)) = []
  /\ pending (host (exec (dispatchUser (moveTo 10)) shownAt42)) = [].
Proof.
  assert (Hp : phase shownAt42 = suggesting) by (vm_compute; reflexivity).
  assert (Ho : overlay shownAt42 = Some (think, 42))
    by (vm_compute; reflexivity).
  assert (He : enabled (settings shownAt42) = true)
    by (vm_compute; reflexivity).
  assert (Hm : manualTriggerOnly (settings shownAt42) = false)
    by (vm_compute; reflexivity).
  destruct (cursor_move_only_dismisses shownAt42 (moveTo 10) He Hm
              eq_refl eq_refl) as (H1 & H2 & H3 & H4 & _).
  rewrite Hp in H1.
  split; [exact Hp|]. split; [exact Ho|]. split; [exact H1|].
  split; [apply (H2 think 42 Ho); discriminate|].
  split; [rewrite H3; vm_compute; reflexivity
         | rewrite H4; vm_compute; reflexivity].
Defined.

(** C5, as the claim states it, fails.  In phase [queued] a pure cursor
    move cancels nothing: the phase stays [queued] and the delay timer
    stays armed, so the request is still issued when it fires.  In phase
    [predicting] the request stays in flight, unaborted. *)
Lemma cursor_move_keeps_queued_timer :
  (phase waiting = queued
   /\ phase (run asciiLower [Dispatch (moveTo 3)] waiting) = queued
   /\ phase (run asciiLower [Dispatch (moveTo 3)] waiting) <> idle
   /\ timeouts (host (run asciiLower [Dispatch (moveTo 3)] waiting))
      = [(1%nat, IdleTimer); (2%nat, QueueTimer)]
   /\ phase (run asciiLower [Dispatch (moveTo 3); Timeout 2] waiting)
      = predicting)
  /\ (phase requested = predicting
      /\ phase (run asciiLower [Dispatch (moveTo 3)] requested) = predicting
      /\ signalled 1 (aiProvider (run asciiLower [Dispatch (moveTo 3)]
                                      requested)) = false).
Proof. vm_compute. repeat split; try reflexivity. discriminate. Qed.

Lemma manualTrigger_refused_or_predicts_witness :
  phase (initial cfgManualOnly note 26) <> disabled
  /\ eligible (initial cfgManualOnly note 26) = true
  /\ phase (exec manualTrigger (initial cfgManualOnly note 26)) = predicting
  /\ fetches (aiProvider (exec manualTrigger (initial cfgManualOnly note 26)))
     = 1%nat.
Proof.
  assert (Hp : phase (initial cfgManualOnly note 26) <> disabled)
    by (vm_compute; discriminate).
  assert (He : eligible (initial cfgManualOnly note 26) = true)
    by (vm_compute; reflexivity).
  pose proof (manualTrigger_refused_or_predicts
                (initial cfgManualOnly note 26) Hp) as H.
  rewrite He in H.
  destruct H as (H1 & _ & _ & _ & _ & _ & _ & _ & H7).
  split; [exact Hp|]. split; [exact He|]. split; [exact H1|].
  rewrite H7. vm_compute. reflexivity.
Defined.

(** C6, as the claim states it, fails.  With the cursor inside an
    unclosed code fence, in phase [idle], the trigger command is refused:
    the phase stays [idle] and no request is made. *)
Lemma manualTrigger_refused_in_code_fence :
  phase (initial cfg fenced 13) = idle
  /\ isInCodeBlock fenced 13 = true
  /\ phase (exec manualTrigger (initial cfg fenced 13)) = idle
  /\ phase (exec manualTrigger (initial cfg fenced 13)) <> predicting
  /\ pending (host (exec manualTrigger (initial cfg fenced 13))) = []
  /\ effects (aiProvider (exec manualTrigger (initial cfg fenced 13))) = [].
Proof. vm_compute. repeat split; try reflexivity. discriminate. Qed.

(** What the trigger command leaves as it is.  The idle timer of the
    last edit stays armed beside the request; a request whose controller
    an earlier stale resolution dropped is not signalled and stays
    suspended beside the new one; and an overlay that outlives its phase,
    its clear being deferred, is still there in phase [predicting]. *)
Example manualTrigger_cancels_only_what_is_held :
  (phase typedThenRequested = predicting
   /\ idleTimer (plugin typedThenRequested) = Some 1%nat
   /\ In (1%nat, IdleTimer) (timeouts (host typedThenRequested)))
  /\ (abortController (aiProvider staleSettled) = None
      /\ capturedCursor staleSettled 2 = Some 26
      /\ phase (exec manualTrigger staleSettled) = predicting
      /\ signalled 2 (aiProvider (exec manualTrigger staleSettled)) = false
      /\ capturedCursor (exec manualTrigger staleSettled) 2 = Some 26)
  /\ (phase (run asciiLower [CommandDismiss] shownAt42) = idle
      /\ overlay (run asciiLower [CommandDismiss] shownAt42) = Some (think, 42)
      /\ phase (exec manualTrigger (run asciiLower [CommandDismiss] shownAt42))
         = predicting
      /\ overlay (exec manualTrigger (run asciiLower [CommandDismiss] shownAt42))
         = Some (think, 42)).
Proof. vm_compute. repeat split; try reflexivity. left; reflexivity. Qed.

Lemma disabled_is_absorbing_witness :
  phase (initial cfgOff note 26) = disabled
  /\ exec trigger (initial cfgOff note 26) = initial cfgOff note 26
  /\ exec manualTrigger (initial cfgOff note 26) = initial cfgOff note 26
  /\ exec cancelQueue (initial cfgOff note 26) = initial cfgOff note 26
  /\ exec dismiss (initial cfgOff note 26) = initial cfgOff note 26
  /\ phase (exec enable (initial cfgOff note 26)) = idle.
Proof.
  assert (Hd : phase (initial cfgOff note 26) = disabled) by reflexivity.
  destruct (disabled_is_absorbing asciiLower (initial cfgOff note 26) Hd)
    as (H1 & H2 & H3 & H4 & H5 & _).
  repeat split; assumption.
Defined.

End Scenarios.

(* ===================================================================== *)
(** * Further properties: context extraction *)
(* ===================================================================== *)

Section WindowFacts.
Import JS Context.

Lemma firstn_add_skipn {A} (n m : nat) (l : list A) :
  firstn (n + m) l = firstn n l ++ firstn m (skipn n l).
Proof.
  revert l. induction n as [|n IH]; intros l; [reflexivity|].
  destruct l as [|x l]; cbn [Nat.add firstn skipn app].
  - rewrite firstn_nil. reflexivity.
  - rewrite IH. reflexivity.
Qed.

Lemma skipn_add {A} (n m : nat) (l : list A) :
  skipn (n + m) l = skipn m (skipn n l).
Proof.
  revert l. induction n as [|n IH]; intros l; [reflexivity|].
  destruct l as [|x l]; cbn [Nat.add skipn]; [rewrite skipn_nil; reflexivity|].
  apply IH.
Qed.

(** A slice between offsets inside the string, in terms of list cuts. *)
Lemma slice_inside (s : jsstring) (a b : Z) :
  0 <= a <= b -> b <= length s ->
  slice s a b = firstn (Z.to_nat (b - a)) (skipn (Z.to_nat a) s).
Proof.
  intros Ha Hb. unfold slice.
  rewrite !relIndex_inside by lia.
  rewrite !Z.min_l by lia. reflexivity.
Qed.

Lemma slice_split (s : jsstring) (a b c : Z) :
  0 <= a <= b -> b <= c -> c <= length s ->
  slice s a c = slice s a b ++ slice s b c.
Proof.
  intros Ha Hb Hc.
  rewrite !slice_inside by lia.
  replace (Z.to_nat (c - a)) with (Z.to_nat (b - a) + Z.to_nat (c - b))%nat by lia.
  rewrite firstn_add_skipn. f_equal. f_equal.
  rewrite <- skipn_add. f_equal. lia.
Qed.

Lemma slice_all (s : jsstring) : slice s 0 (length s) = s.
Proof.
  rewrite slice_inside by (pose proof (length_nonneg s); lia).
  cbn [skipn Z.to_nat]. rewrite Z.sub_0_r. unfold length.
  rewrite Nat2Z.id. apply firstn_all.
Qed.

(** Any offset cuts a string in two slices. *)
Lemma slice_cut (s : jsstring) (k : Z) :
  0 <= k -> s = slice s 0 k ++ sliceFrom s k.
Proof.
  intros Hk. unfold sliceFrom, slice.
  pose proof (length_nonneg s) as Hs.
  rewrite !relIndex_inside by lia.
  rewrite (Z.min_l 0) by lia. rewrite Z.min_id. cbn [Z.to_nat skipn].
  rewrite Z.sub_0_r.
  transitivity (firstn (Z.to_nat (Z.min k (length s))) s
                ++ skipn (Z.to_nat (Z.min k (length s))) s);
    [symmetry; apply firstn_skipn|].
  f_equal. symmetry. apply firstn_all2.
  rewrite length_skipn. unfold length. lia.
Qed.

(** X1. The context window is cut out around the cursor: for a budget
    [B >= 0] and a cursor inside the document, the prefix is a final
    segment of the text before the cursor and the suffix an initial
    segment of the text after it; nothing is reordered or taken from
    elsewhere. *)
Theorem extractContext_window_adjacent (v : EditorState) (B : Z) (trail : bool) :
  0 <= B -> 0 <= head v <= length (doc v) ->
  (exists dropped,
     slice (doc v) 0 (head v) = dropped ++ prefix (extractContext v B trail))
  /\ (exists rest,
        sliceFrom (doc v) (head v) = suffix (extractContext v B trail) ++ rest).
Proof.
  intros HB Hh. unfold extractContext. cbn [prefix suffix]. split.
  - set (start := Z.max 0 (head v - B)).
    assert (Hs : 0 <= start <= head v) by (subst start; lia).
    rewrite (slice_split (doc v) 0 start (head v)) by lia.
    set (prefix0 := slice (doc v) start (head v)).
    destruct (0 <? start); [|eexists; reflexivity].
    destruct ((0 <? indexOf prefix0 [newline])
              && (indexOf prefix0 [newline] <? 100)) eqn:E;
      [|eexists; reflexivity].
    apply andb_true_iff in E. destruct E as [E _]. apply Z.ltb_lt in E.
    exists (slice (doc v) 0 start
            ++ slice prefix0 0 (indexOf prefix0 [newline] + 1)).
    rewrite <- app_assoc. f_equal. apply slice_cut. lia.
  - set (stop := Z.min (length (doc v)) (head v + B / 3)).
    assert (Hq : 0 <= B / 3) by (apply Z.div_pos; lia).
    assert (Hs : head v <= stop <= length (doc v)) by (subst stop; lia).
    unfold sliceFrom.
    rewrite (slice_split (doc v) (head v) stop (length (doc v))) by lia.
    set (suffix0 := slice (doc v) (head v) stop).
    destruct (stop <? length (doc v)); [|eexists; reflexivity].
    destruct (0 <? lastIndexOf suffix0 [newline]) eqn:E;
      [|eexists; reflexivity].
    apply Z.ltb_lt in E.
    exists (sliceFrom suffix0 (lastIndexOf suffix0 [newline])
            ++ slice (doc v) stop (length (doc v))).
    rewrite app_assoc. f_equal. apply slice_cut. lia.
Qed.

(** X2. A document that fits the budget is handed over whole: when the
    cursor offset is at most [B] and at most [floor(B/3)] units follow
    the cursor, prefix followed by suffix is the document, with no
    trimming to line boundaries. *)
Theorem extractContext_whole_when_fits (v : EditorState) (B : Z) (trail : bool) :
  0 <= head v <= length (doc v) ->
  head v <= B ->
  length (doc v) <= head v + B / 3 ->
  prefix (extractContext v B trail) ++ suffix (extractContext v B trail) = doc v.
Proof.
  intros Hh HB Hs. unfold extractContext. cbn [prefix suffix].
  rewrite (Z.max_l 0) by lia.
  rewrite (Z.min_l (length (doc v))) by lia.
  rewrite !Z.ltb_irrefl.
  rewrite <- (slice_split (doc v) 0 (head v) (length (doc v))) by lia.
  apply slice_all.
Qed.
End WindowFacts.

Section HeadingFacts.
Import JS Context Derived.

Lemma firstDown_some {A} (n : nat) (f : nat -> option A) (x : A) :
  firstDown n f = Some x -> exists k, (1 <= k <= n)%nat /\ f k = Some x.
Proof.
  induction n as [|n IH]; cbn [firstDown]; [discriminate|].
  destruct (f (S n)) as [y|] eqn:E.
  - intros [= <-]. exists (S n). split; [lia | exact E].
  - intros H. destruct (IH H) as (k & Hk & Hf). exists k. split; [lia | exact Hf].
Qed.

Lemma matchHeading_level (line : jsstring) (level : nat) (text : jsstring) :
  matchHeading line = Some (level, text) -> (1 <= level <= 6)%nat.
Proof.
  unfold matchHeading. intros H.
  apply firstDown_some in H. destruct H as (k & Hk & H).
  apply firstDown_some in H. destruct H as (w & _ & H).
  destruct (dotPlusToEnd _); [|discriminate].
  injection H as <- _. lia.
Qed.

Lemma popDeeper_nested (level : nat) (hs : list (nat * jsstring)) :
  nested hs ->
  nested (popDeeper level hs)
  /\ match popDeeper level hs with
     | [] => True
     | (l', _) :: _ => (l' < level)%nat
     end.
Proof.
  induction hs as [|[l t] hs IH]; cbn [popDeeper]; [intros _; split; exact I|].
  intros H. destruct (Nat.leb level l) eqn:E.
  - apply IH. cbn [nested] in H. tauto.
  - apply Nat.leb_gt in E. split; [exact H | exact E].
Qed.

Lemma headingStep_nested (hs : list (nat * jsstring)) (line : jsstring) :
  nested hs -> nested (headingStep hs line).
Proof.
  intros H. unfold headingStep.
  destruct (matchHeading line) as [[level text]|] eqn:E; [|exact H].
  destruct (popDeeper_nested level hs H) as [Hn Hl].
  cbn [nested]. split; [eapply matchHeading_level; exact E|].
  split; assumption.
Qed.

Lemma fold_headingStep_nested (lines : list jsstring) (hs : list (nat * jsstring)) :
  nested hs -> nested (fold_left headingStep lines hs).
Proof.
  revert hs. induction lines as [|l ls IH]; intros hs H; cbn [fold_left];
    [exact H|].
  apply IH, headingStep_nested, H.
Qed.

Lemma nested_length (hs : list (nat * jsstring)) :
  nested hs ->
  match hs with
  | [] => True
  | (l, _) :: _ => (List.length hs <= l)%nat
  end.
Proof.
  induction hs as [|[l t] hs IH]; [intros _; exact I|].
  cbn [nested]. intros (Hl & Hb & Hn). specialize (IH Hn).
  destruct hs as [|[l' t'] hs']; cbn [List.length] in *; lia.
Qed.

(** X3. The heading trail is the outline path to the cursor: the texts
    of the headings left on the stack, outermost first, joined by [" > "];
    the levels on the stack grow strictly from the outermost to the
    innermost and lie between 1 and 6, so the trail names at most six
    headings. *)
Theorem heading_trail_is_outline_path (doc : jsstring) (cursorPosition : Z) :
  extractHeadingTrail doc cursorPosition
  = join (lit " > ") (List.map snd (rev (headingStack doc cursorPosition)))
  /\ nested (headingStack doc cursorPosition)
  /\ (List.length (headingStack doc cursorPosition) <= 6)%nat.
Proof.
  assert (Hn : nested (headingStack doc cursorPosition))
    by (apply fold_headingStep_nested; exact I).
  split; [|split; [exact Hn|]].
  - unfold extractHeadingTrail. fold (headingStack doc cursorPosition).
    destruct (rev (headingStack doc cursorPosition)); reflexivity.
  - pose proof (nested_length _ Hn) as Hl.
    destruct (headingStack doc cursorPosition) as [|[l t] hs];
      [cbn; lia|].
    cbn [nested] in Hn. lia.
Qed.
End HeadingFacts.

Section FrontmatterFacts.
Import JS Context.




End FrontmatterFacts.

Section FenceFacts.
Import JS Context.








End FenceFacts.

(* ===================================================================== *)
(** * Further properties: the completion requester *)
(* ===================================================================== *)

Section CleanFacts.
Import JS Types Provider.

Lemma trimStart_suffix (s : jsstring) : exists pre, s = pre ++ trimStart s.
Proof.
  induction s as [|c s [pre IH]]; [exists []; reflexivity|].
  cbn [trimStart]. destruct (isWhiteSpace c).
  - exists (c :: pre). cbn [app]. f_equal. exact IH.
  - exists []. reflexivity.
Qed.

Lemma trimStart_head (s : jsstring) :
  match trimStart s with
  | c :: _ => isWhiteSpace c = false
  | [] => True
  end.
Proof.
  induction s as [|c s IH]; [exact I|].
  cbn [trimStart]. destruct (isWhiteSpace c) eqn:E; [exact IH | exact E].
Qed.

Lemma trimStart_fixed (s : jsstring) :
  match s with c :: _ => isWhiteSpace c = false | [] => True end ->
  trimStart s = s.
Proof. destruct s as [|c s]; [reflexivity|]. cbn. intros ->. reflexivity. Qed.

Lemma trimStart_idem (s : jsstring) : trimStart (trimStart s) = trimStart s.
Proof. apply trimStart_fixed, trimStart_head. Qed.

Lemma trimEnd_prefix (s : jsstring) : exists suf, s = trimEnd s ++ suf.
Proof.
  unfold trimEnd. destruct (trimStart_suffix (rev s)) as [pre H].
  exists (rev pre). rewrite <- rev_app_distr, <- H, rev_involutive. reflexivity.
Qed.

Lemma trim_fixed (s : jsstring) :
  trimStart (trim s) = trim s /\ trimEnd (trim s) = trim s.
Proof.
  unfold trim. split.
  - pose proof (trimStart_head s) as Hh.
    destruct (trimEnd_prefix (trimStart s)) as [suf Hs].
    apply trimStart_fixed.
    destruct (trimEnd (trimStart s)) as [|c r]; [exact I|].
    rewrite Hs in Hh. exact Hh.
  - unfold trimEnd. rewrite rev_involutive, trimStart_idem. reflexivity.
Qed.

Lemma length_trimStart (s : jsstring) : length (trimStart s) <= length s.
Proof.
  destruct (trimStart_suffix s) as [pre H]. rewrite H at 2.
  unfold length. rewrite length_app. lia.
Qed.

Lemma length_trim (s : jsstring) : length (trim s) <= length s.
Proof.
  unfold trim, trimEnd. pose proof (length_trimStart s).
  pose proof (length_trimStart (rev (trimStart s))).
  unfold length in *. rewrite length_rev in *. lia.
Qed.

Lemma length_stripFirstPrefix (ps : list jsstring) (s : jsstring) :
  length (stripFirstPrefix ps s) <= length s.
Proof.
  induction ps as [|p ps IH]; cbn [stripFirstPrefix]; [lia|].
  destruct (startsWith s p); [apply length_sliceFrom_le | exact IH].
Qed.

(** X6. A cleaned suggestion has no white space at either end and is
    never longer than what the model sent. *)
Theorem cleanSuggestion_is_trimmed (suggestion : jsstring) :
  trimStart (cleanSuggestion suggestion) = cleanSuggestion suggestion
  /\ trimEnd (cleanSuggestion suggestion) = cleanSuggestion suggestion
  /\ length (cleanSuggestion suggestion) <= length suggestion.
Proof.
  unfold cleanSuggestion.
  split; [apply trim_fixed|]. split; [apply trim_fixed|].
  match goal with |- length (trim (stripFirstPrefix _ ?c)) <= _ =>
    pose proof (length_trim (stripFirstPrefix prefixes c));
    pose proof (length_stripFirstPrefix prefixes c);
    assert (length c <= length suggestion)
  end; [|lia].
  destruct (_ || _); [apply length_slice_le | lia].
Qed.
End CleanFacts.

Section RequesterMore.
Import JS Types Provider.
Variable toLowerCase : jsstring -> jsstring.

(** Settling adds at most an error log to what the provider did. *)
Lemma completeFinish_extends (settings : Settings) (net : Outcome Response)
  (a : AIProvider) :
  exists r extra,
    completeFinish toLowerCase settings net a
    = (Returns r, mkAIProvider None (effects a ++ extra))
    /\ (extra = [] \/ extra = [ConsoleError]).
Proof.
  destruct a as [c es].
  unfold completeFinish, tryCatchFinally, Provider.bind, await, emit,
    Provider.ret, setController.
  destruct net as [resp|e]; cbn;
    [ destruct (ok resp); cbn;
      [ destruct (bodyJson resp) as [data|e]; cbn;
        [ destruct (extractContent data) as [[[|u t]|]|e]; cbn |]
      | destruct (bodyText resp) as [t|e]; cbn ] |];
    split_ifs; cbn;
    first [ exists None, []; rewrite app_nil_r; split; [reflexivity | left; reflexivity]
          | exists None, [ConsoleError]; split; [reflexivity | right; reflexivity]
          | eexists _, []; rewrite app_nil_r; split; [reflexivity | left; reflexivity] ].
Qed.

(** [complete] up to [fetch], spelled out. *)
Lemma completeStart_runs (settings : Settings) (controller : nat)
  (context : CompletionContext) (a : AIProvider) :
  completeStart settings controller context a
  = if configured settings
    then (Returns AwaitingFetch,
          mkAIProvider (Some controller)
            (effects (snd (Provider.abort a))
             ++ [Fetch controller (buildRequest settings context)]))
    else (Returns (Resolved None),
          mkAIProvider None (effects (snd (Provider.abort a)) ++ [ConsoleWarn])).
Proof.
  destruct a as [[id|] es]; unfold configured, completeStart;
    destruct (isEmpty (apiKey settings) || isEmpty (apiEndpoint settings));
    reflexivity.
Qed.

Lemma abort_effects (a : AIProvider) :
  effects (snd (Provider.abort a))
  = effects a ++ match abortController a with
                 | Some c => [SignalAbort c]
                 | None => []
                 end.
Proof. destruct a as [[id|] es]; cbn; rewrite ?app_nil_r; reflexivity. Qed.

(** X7. Whatever the network does, when [complete] has returned the
    provider holds no abort controller, a controller it held before has
    been signalled, and exactly one request was sent if API key and
    endpoint are configured, none otherwise. *)
Theorem complete_releases_controller (settings : Settings) (controller : nat)
  (context : CompletionContext) (net : Outcome Response) (a : AIProvider) :
  abortController
    (snd (complete toLowerCase settings controller context net a)) = None
  /\ (forall c, abortController a = Some c ->
        In (SignalAbort c)
           (effects (snd (complete toLowerCase settings controller context net a))))
  /\ fetches (snd (complete toLowerCase settings controller context net a))
     = (if configured settings then S (fetches a) else fetches a).
Proof.
  unfold complete, Provider.bind. rewrite completeStart_runs.
  destruct (configured settings).
  - match goal with
    | |- context [completeFinish toLowerCase ?s ?n ?p] =>
        destruct (completeFinish_extends s n p) as (r & extra & Hfin & Hextra);
        rewrite Hfin
    end.
    cbn [snd abortController effects]. rewrite abort_effects.
    split; [reflexivity|]. split.
    + intros c ->. rewrite !in_app_iff. cbn [In]. tauto.
    + destruct a as [c es]. destruct Hextra as [-> | ->], c; count_effects.
  - cbn [snd abortController effects Provider.ret]. rewrite abort_effects.
    split; [reflexivity|]. split.
    + intros c ->. rewrite !in_app_iff. cbn [In]. tauto.
    + destruct a as [[c|] es]; count_effects.
Qed.

(** X8. On success the suggestion is the content of the first choice,
    cleaned, then case-transformed: with key and endpoint configured, an
    ok response and a body whose first choice has non-empty trimmed
    content, [complete] returns exactly that, having sent the one request
    built from the settings and the context. *)
Theorem complete_returns_cleaned_content (settings : Settings)
  (controller : nat) (context : CompletionContext) (resp : Response)
  (data : json) (u : N) (t : jsstring) (a : AIProvider) :
  configured settings = true ->
  ok resp = true ->
  bodyJson resp = Returns data ->
  extractContent data = Returns (Some (u :: t)) ->
  complete toLowerCase settings controller context (Returns resp) a
  = (Returns (Some (transformCase toLowerCase (cleanSuggestion (u :: t))
                                  (suggestionCase settings))),
     mkAIProvider None
       (effects (snd (Provider.abort a))
        ++ [Fetch controller (buildRequest settings context)])).
Proof.
  intros Hcfg Hok Hjson Hdata.
  unfold complete, Provider.bind. rewrite completeStart_runs, Hcfg.
  unfold completeFinish, tryCatchFinally, Provider.bind, await, emit,
    Provider.ret, setController.
  rewrite Hok. cbn [negb]. rewrite Hjson, Hdata. reflexivity.
Qed.
End RequesterMore.

(* ===================================================================== *)
(** * Further properties: the lifecycle engine *)
(* ===================================================================== *)

Section TimerFacts.
Import JS Types Context Provider Engine Derived.
Variable toLowerCase : jsstring -> jsstring.

Lemma queueIds_app (ts us : list (nat * TimerKind)) :
  queueIds (ts ++ us) = queueIds ts ++ queueIds us.
Proof. unfold queueIds. rewrite filter_app, map_app. reflexivity. Qed.

Lemma idleIds_app (ts us : list (nat * TimerKind)) :
  idleIds (ts ++ us) = idleIds ts ++ idleIds us.
Proof. unfold idleIds. rewrite filter_app, map_app. reflexivity. Qed.

Lemma queueIds_clear (id : nat) (ts : list (nat * TimerKind)) :
  queueIds (filter (fun t => negb (Nat.eqb (fst t) id)) ts)
  = filter (fun i => negb (Nat.eqb i id)) (queueIds ts).
Proof.
  unfold queueIds. induction ts as [|[i k] ts IH]; [reflexivity|].
  cbn [filter fst]. destruct (negb (Nat.eqb i id)) eqn:E, k;
    cbn [filter isQueueTimer snd List.map fst]; rewrite ?E, IH; reflexivity.
Qed.

Lemma idleIds_clear (id : nat) (ts : list (nat * TimerKind)) :
  idleIds (filter (fun t => negb (Nat.eqb (fst t) id)) ts)
  = filter (fun i => negb (Nat.eqb i id)) (idleIds ts).
Proof.
  unfold idleIds. induction ts as [|[i k] ts IH]; [reflexivity|].
  cbn [filter fst]. destruct (negb (Nat.eqb i id)) eqn:E, k;
    cbn [filter isIdleTimer snd List.map fst]; rewrite ?E, IH; reflexivity.
Qed.

(** The same two facts on the filter as it stands once the engine has
    run. *)
Lemma queueIds_cleared (id : nat) (ts : list (nat * TimerKind)) :
  queueIds (filter (fun t : nat * TimerKind =>
                      if Nat.eqb (let (x, _) := t in x) id then false else true)
                   ts)
  = filter (fun i => negb (Nat.eqb i id)) (queueIds ts).
Proof. exact (queueIds_clear id ts). Qed.

Lemma idleIds_cleared (id : nat) (ts : list (nat * TimerKind)) :
  idleIds (filter (fun t : nat * TimerKind =>
                     if Nat.eqb (let (x, _) := t in x) id then false else true)
                  ts)
  = filter (fun i => negb (Nat.eqb i id)) (idleIds ts).
Proof. exact (idleIds_clear id ts). Qed.

(** Worlds whose phase and delay-timer handle disagree are ruled out by
    the invariant. *)
Ltac timers_absurd :=
  match goal with
  | H : ?a = queued <-> Some _ <> None |- _ =>
      assert (a = queued) by (apply H; discriminate); discriminate
  | H : queued = queued <-> None <> None |- _ =>
      exfalso; apply (proj1 H); reflexivity
  end.

(** Held handles are below the next id, and distinct. *)
Ltac timers_facts :=
  repeat match goal with
  | H : forall id, In id (held (Some ?q) ++ held ?o) -> (id < ?n)%nat |- _ =>
      lazymatch goal with
      | _ : (q < n)%nat |- _ => fail
      | _ => assert (q < n)%nat by (apply H; cbn; auto)
      end
  | H : forall id, In id (held ?o ++ held (Some ?i)) -> (id < ?n)%nat |- _ =>
      lazymatch goal with
      | _ : (i < n)%nat |- _ => fail
      | _ => assert (i < n)%nat by (apply H; destruct o; cbn; auto)
      end
  | H : forall id, Some ?q = Some id -> Some ?i = Some id -> False |- _ =>
      lazymatch goal with
      | _ : q <> i |- _ => fail
      | _ => assert (q <> i) by (intros ->; eapply H; reflexivity)
      end
  end.

Ltac timers_goal :=
  lazymatch goal with
  | |- _ = held _ =>
      rewrite ?queueIds_app, ?idleIds_app, ?queueIds_cleared, ?idleIds_cleared;
      repeat match goal with
             | H : queueIds ?t = _ |- context [queueIds ?t] => rewrite H
             | H : idleIds ?t = _ |- context [idleIds ?t] => rewrite H
             end;
      cbn [queueIds idleIds held filter isQueueTimer isIdleTimer
           snd fst List.map app negb];
      repeat match goal with
             | |- context [Nat.eqb ?a ?b] =>
                 destruct (Nat.eqb_spec a b); subst; cbn [negb filter app]
             end;
      first [reflexivity | exfalso; lia | exfalso; congruence]
  | |- forall id, In id _ -> _ =>
      let Hin := fresh in
      intros ? Hin; cbn [In app held] in Hin;
      repeat match goal with
             | H : _ \/ _ |- _ => destruct H
             | H : False |- _ => destruct H
             end; subst; lia
  | |- forall id, _ = Some id -> _ = Some id -> False =>
      let E1 := fresh in let E2 := fresh in
      intros ? E1 E2; try discriminate E1; try discriminate E2;
      injection E1 as <-; injection E2; intros; subst;
      first [lia | congruence]
  | |- _ <-> _ =>
      split; intros;
      first [ reflexivity | discriminate | congruence
            | match goal with H : ?x <> ?x |- _ => exfalso; apply H; reflexivity end ]
  end.

Ltac timers w :=
  intros w;
  destruct w as [[wd wh [[wt wp]|]] wdisp wset [[| | | |] [wqt|] wcv wnt]
                 [[wctl|] weffs] [wldl [wit|]] [wtos wfr wpend wnid]];
  run_engine; unfold timersTracked; run_engine;
  intros (? & ? & ? & ? & ?);
  try timers_absurd; timers_facts; split_ifs; run_engine;
  repeat match goal with |- _ /\ _ => split end;
  try timers_goal.

Lemma trigger_tracked : preserves timersTracked trigger.
Proof. timers w. Qed.

Lemma cancelQueue_tracked : preserves timersTracked cancelQueue.
Proof. timers w. Qed.

Lemma dismiss_tracked : preserves timersTracked dismiss.
Proof. timers w. Qed.

Lemma manualTrigger_tracked : preserves timersTracked manualTrigger.
Proof. timers w. Qed.

Lemma resetIdleTimer_tracked : preserves timersTracked resetIdleTimer.
Proof. timers w. Qed.

Lemma setView_tracked : preserves timersTracked setView.
Proof. timers w. Qed.

Lemma updateSettings_tracked (s : Settings) :
  preserves timersTracked (updateSettings s).
Proof. timers w. Qed.

Lemma escapeKey_tracked : preserves timersTracked escapeKey.
Proof. timers w. Qed.

Lemma predictResume_tracked (c : CompletionContext) (r : option jsstring) :
  preserves timersTracked (predictResume c r).
Proof. destruct r as [[|u t]|]; timers w. Qed.

Lemma animationFrame_tracked : preserves timersTracked animationFrame.
Proof.
  intros w.
  destruct w as [[wd wh [[wt wp]|]] wdisp wset [[| | | |] [wqt|] wcv wnt]
                 [[wctl|] weffs] [wldl [wit|]] [wtos [|wfr] wpend wnid]];
  run_engine; unfold timersTracked; run_engine;
  intros (? & ? & ? & ? & ?);
  repeat match goal with |- _ /\ _ => split end; assumption.
Qed.

(** A live timer is one whose handle is held. *)
Lemma live_timer_held (w : World) (id : nat) (kind : TimerKind) :
  timersTracked w ->
  find (fun t => Nat.eqb (fst t) id) (timeouts (host w)) = Some (id, kind) ->
  match kind with
  | QueueTimer => queueTimer (machine w) = Some id
  | IdleTimer => idleTimer (plugin w) = Some id
  end.
Proof.
  intros (Hq & Hi & _) Hf. apply find_some in Hf. destruct Hf as [Hin _].
  destruct kind.
  - assert (H : In id (queueIds (timeouts (host w)))).
    { unfold queueIds. apply in_map_iff. exists (id, QueueTimer).
      split; [reflexivity|]. apply filter_In. split; [exact Hin | reflexivity]. }
    rewrite Hq in H. destruct (queueTimer (machine w)) as [q|]; cbn in H;
      [destruct H as [->|[]]; reflexivity | destruct H].
  - assert (H : In id (idleIds (timeouts (host w)))).
    { unfold idleIds. apply in_map_iff. exists (id, IdleTimer).
      split; [reflexivity|]. apply filter_In. split; [exact Hin | reflexivity]. }
    rewrite Hi in H. destruct (idleTimer (plugin w)) as [q|]; cbn in H;
      [destruct H as [->|[]]; reflexivity | destruct H].
Qed.

Lemma find_by_id (ts : list (nat * TimerKind)) (id i : nat) (k : TimerKind) :
  find (fun t => Nat.eqb (fst t) id) ts = Some (i, k) -> i = id.
Proof.
  intros H. apply find_some in H. destruct H as [_ H].
  apply Nat.eqb_eq in H. exact H.
Qed.

Lemma queueTimer_fired_tracked (w : World) (id : nat) :
  timersTracked w -> queueTimer (machine w) = Some id ->
  timersTracked (exec (Engine.bind (clearTimeout id) (fun _ => queueTimerFired)) w).
Proof.
  revert w. timers w; intros E; try discriminate E; injection E as <-;
    repeat match goal with |- _ /\ _ => split end; timers_goal.
Qed.

Lemma idleTimer_fired_tracked (w : World) (id : nat) :
  timersTracked w -> idleTimer (plugin w) = Some id ->
  timersTracked (exec (Engine.bind (clearTimeout id) (fun _ => setIdleTimer None)) w).
Proof.
  revert w. timers w; intros E; try discriminate E; injection E as <-;
    repeat match goal with |- _ /\ _ => split end; timers_goal.
Qed.

Lemma timeoutFired_tracked (id : nat) :
  preserves timersTracked (timeoutFired id).
Proof.
  intros w Hw. unfold timeoutFired, Engine.bind at 1, gets.
  destruct (find _ (timeouts (host w))) as [[i k]|] eqn:Hf; [|exact Hw].
  pose proof (find_by_id _ _ _ _ Hf) as ->.
  pose proof (live_timer_held w id k Hw Hf) as Hk.
  destruct k.
  - apply (queueTimer_fired_tracked w id Hw Hk).
  - unfold idleTimerFired.
    pose proof (idleTimer_fired_tracked w id Hw Hk) as H.
    unfold exec, Engine.bind in *.
    destruct (clearTimeout id w) as [u w1]. 
    destruct (setIdleTimer None w1) as [u2 w2]. cbn [snd] in H.
    unfold gets. 
    apply preserves_when; [apply trigger_tracked | exact H].
Qed.

Lemma settle_tracked (id : nat) (net : Outcome Response) :
  preserves timersTracked (settle toLowerCase id net).
Proof.
  unfold settle.
  apply preserves_bind; [apply preserves_gets | intros ps].
  destruct (find _ ps) as [p|]; [|apply preserves_ret].
  apply preserves_bind; [intros w H; exact H | intros _].
  destruct (started p) as [r|].
  - apply predictResume_tracked.
  - intros w Hw.
    destruct (completeFinish toLowerCase (settings w) _ (aiProvider w))
      as [[r|e] a'].
    + apply predictResume_tracked. exact Hw.
    + exact Hw.
Qed.

Lemma checkTriggers_tracked (u : ViewUpdate) (s : Settings) :
  preserves timersTracked (checkTriggers u s).
Proof.
  unfold checkTriggers.
  apply preserves_bind; [apply preserves_gets | intros d].
  apply preserves_bind; [apply preserves_gets | intros pos].
  match goal with |- preserves _ (if ?b then _ else _) => destruct b end;
    [apply trigger_tracked|].
  do 2 apply preserves_when.
  apply preserves_forEach. intros x.
  apply preserves_when, trigger_tracked.
Qed.

Lemma pluginUpdate_tracked (u : ViewUpdate) :
  preserves timersTracked (pluginUpdate u).
Proof.
  unfold pluginUpdate.
  apply preserves_bind; [apply preserves_gets | intros s].
  apply preserves_bind; [apply setView_tracked | intros _].
  destruct (negb (enabled s)); [apply preserves_ret|].
  destruct (manualTriggerOnly s); [apply preserves_ret|].
  apply preserves_bind; [|intros _; apply preserves_when, dismiss_tracked].
  apply preserves_when.
  apply preserves_bind; [apply preserves_gets | intros newLength].
  apply preserves_bind; [apply preserves_gets | intros last].
  apply preserves_bind; [intros w H; exact H | intros _].
  apply preserves_bind; [apply cancelQueue_tracked | intros _].
  apply preserves_bind; [apply resetIdleTimer_tracked | intros _].
  apply preserves_when, checkTriggers_tracked.
Qed.

Lemma step_tracked (e : Event) :
  preserves timersTracked (step toLowerCase e).
Proof.
  destruct e as [tr|id| |id net| | | |s| ]; cbn [step].
  - unfold dispatchUser.
    apply preserves_bind; [intros w H; exact H | intros _].
    apply pluginUpdate_tracked.
  - apply timeoutFired_tracked.
  - apply animationFrame_tracked.
  - apply settle_tracked.
  - apply manualTrigger_tracked.
  - apply dismiss_tracked.
  - apply escapeKey_tracked.
  - intros w H. exact H.
  - apply preserves_bind; [apply preserves_gets | intros s].
    apply updateSettings_tracked.
Qed.

Lemma initial_tracked (s : Settings) (d : jsstring) (h : Z) :
  timersTracked (initial s d h).
Proof.
  unfold timersTracked, initial, phase. cbn.
  split; [reflexivity|]. split; [reflexivity|].
  split; [intros ? []|]. split; [intros ? E; discriminate E|].
  split.
  - destruct (enabled s); discriminate.
  - intros H. exfalso. apply H. reflexivity.
Qed.

(** X9. No timer leaks.  At every point of every run the live delay
    timers are exactly the one whose handle the machine holds and the
    live idle timers exactly the one whose handle the plugin holds; the
    two handles differ; and a delay timer is live exactly when the phase
    is [queued]. *)
Theorem timers_tracked_along_every_run
  (s : Settings) (d : jsstring) (h : Z) (es : list Event) :
  timersTracked (run toLowerCase es (initial s d h)).
Proof.
  generalize (initial_tracked s d h). generalize (initial s d h).
  induction es as [|e es IH]; intros w Hw; cbn [run]; [exact Hw|].
  apply IH, step_tracked, Hw.
Qed.
End TimerFacts.

Section AnchorFacts.
Import JS Types Context Provider Engine Derived.
Variable toLowerCase : jsstring -> jsstring.

Ltac anchors w :=
  intros w;
  destruct w as [[wd wh [[wt wp]|]] wdisp wset [[| | | |] [wqt|] wcv wnt]
                 [[wctl|] weffs] [wldl [wit|]] [wtos [|wfr] wpend wnid]];
  unfold anchored; run_engine; intros ?; split_ifs; run_engine;
  first [ exact I | assumption | split; [reflexivity | discriminate] ].

Lemma trigger_anchored : preserves anchored trigger.
Proof. anchors w. Qed.
Lemma cancelQueue_anchored : preserves anchored cancelQueue.
Proof. anchors w. Qed.
Lemma dismiss_anchored : preserves anchored dismiss.
Proof. anchors w. Qed.
Lemma manualTrigger_anchored : preserves anchored manualTrigger.
Proof. anchors w. Qed.
Lemma resetIdleTimer_anchored : preserves anchored resetIdleTimer.
Proof. anchors w. Qed.
Lemma setView_anchored : preserves anchored setView.
Proof. anchors w. Qed.
Lemma updateSettings_anchored (s : Settings) :
  preserves anchored (updateSettings s).
Proof. anchors w. Qed.
Lemma escapeKey_anchored : preserves anchored escapeKey.
Proof. anchors w. Qed.
Lemma animationFrame_anchored : preserves anchored animationFrame.
Proof. anchors w. Qed.
Lemma clearTimeout_anchored (id : nat) : preserves anchored (clearTimeout id).
Proof. anchors w. Qed.
Lemma queueTimerFired_anchored : preserves anchored queueTimerFired.
Proof. anchors w. Qed.
Lemma setIdleTimer_anchored (t : option nat) :
  preserves anchored (setIdleTimer t).
Proof. anchors w. Qed.

Lemma predictResume_anchored (c : CompletionContext) (r : option jsstring) :
  preserves anchored (predictResume c r).
Proof. destruct r as [[|u t]|]; anchors w. Qed.

Lemma timeoutFired_anchored (id : nat) :
  preserves anchored (timeoutFired id).
Proof.
  unfold timeoutFired.
  apply preserves_bind; [apply preserves_gets | intros ts].
  destruct (find _ ts) as [[? kind]|]; [|apply preserves_ret].
  apply preserves_bind; [apply clearTimeout_anchored | intros _].
  destruct kind; [apply queueTimerFired_anchored|].
  unfold idleTimerFired.
  apply preserves_bind; [apply setIdleTimer_anchored | intros _].
  apply preserves_bind; [apply preserves_gets | intros s].
  apply preserves_when, trigger_anchored.
Qed.

Lemma settle_anchored (id : nat) (net : Outcome Response) :
  preserves anchored (settle toLowerCase id net).
Proof.
  unfold settle.
  apply preserves_bind; [apply preserves_gets | intros ps].
  destruct (find _ ps) as [p|]; [|apply preserves_ret].
  apply preserves_bind; [intros w H; exact H | intros _].
  destruct (started p) as [r|].
  - apply predictResume_anchored.
  - intros w Hw.
    destruct (completeFinish toLowerCase (settings w) _ (aiProvider w))
      as [[r|e] a'].
    + apply predictResume_anchored. exact Hw.
    + exact Hw.
Qed.

Lemma checkTriggers_anchored (u : ViewUpdate) (s : Settings) :
  preserves anchored (checkTriggers u s).
Proof.
  unfold checkTriggers.
  apply preserves_bind; [apply preserves_gets | intros d].
  apply preserves_bind; [apply preserves_gets | intros pos].
  match goal with |- preserves _ (if ?b then _ else _) => destruct b end;
    [apply trigger_anchored|].
  do 2 apply preserves_when.
  apply preserves_forEach. intros x.
  apply preserves_when, trigger_anchored.
Qed.

Lemma pluginUpdate_anchored (u : ViewUpdate) :
  preserves anchored (pluginUpdate u).
Proof.
  unfold pluginUpdate.
  apply preserves_bind; [apply preserves_gets | intros s].
  apply preserves_bind; [apply setView_anchored | intros _].
  destruct (negb (enabled s)); [apply preserves_ret|].
  destruct (manualTriggerOnly s); [apply preserves_ret|].
  apply preserves_bind; [|intros _; apply preserves_when, dismiss_anchored].
  apply preserves_when.
  apply preserves_bind; [apply preserves_gets | intros newLength].
  apply preserves_bind; [apply preserves_gets | intros last].
  apply preserves_bind; [intros w H; exact H | intros _].
  apply preserves_bind; [apply cancelQueue_anchored | intros _].
  apply preserves_bind; [apply resetIdleTimer_anchored | intros _].
  apply preserves_when, checkTriggers_anchored.
Qed.

Lemma dispatchUser_anchored (tr : Transaction) :
  preserves anchored (dispatchUser tr).
Proof.
  unfold dispatchUser.
  apply preserves_bind; [|intros _; apply pluginUpdate_anchored].
  destruct tr as [[|] tdoc [|] th tin tins]; intros w;
    destruct w as [[wd wh [[wt wp]|]] wdisp wset wm wa wpl wh0];
    unfold anchored; run_engine; intros H; try exact I; try exact H.
  destruct (Z.eqb_spec th wp) as [->|]; [|exact I].
  split; [reflexivity | apply H].
Qed.

Lemma step_anchored (e : Event) : preserves anchored (step toLowerCase e).
Proof.
  destruct e as [tr|id| |id net| | | |s| ]; cbn [step].
  - apply dispatchUser_anchored.
  - apply timeoutFired_anchored.
  - apply animationFrame_anchored.
  - apply settle_anchored.
  - apply manualTrigger_anchored.
  - apply dismiss_anchored.
  - apply escapeKey_anchored.
  - intros w H. exact H.
  - apply preserves_bind; [apply preserves_gets | intros s].
    apply updateSettings_anchored.
Qed.

(** X10. At every point of every run an overlay that is there sits at
    the cursor offset and shows a non-empty text. *)
Theorem overlay_anchored_at_cursor
  (s : Settings) (d : jsstring) (h : Z) (es : list Event)
  (text : jsstring) (position : Z) :
  overlay (run toLowerCase es (initial s d h)) = Some (text, position) ->
  position = head (view (run toLowerCase es (initial s d h)))
  /\ text <> [].
Proof.
  assert (H : anchored (run toLowerCase es (initial s d h))).
  { assert (H0 : anchored (initial s d h)) by exact I.
    revert H0. generalize (initial s d h).
    induction es as [|e es IH]; intros w Hw; cbn [run]; [exact Hw|].
    apply IH, step_anchored, Hw. }
  unfold anchored in H. intros E. rewrite E in H. exact H.
Qed.
End AnchorFacts.

Section EditFacts.
Import JS Types Context Provider Engine Derived.
Variable toLowerCase : jsstring -> jsstring.

Lemma establishes_bind {A B} (P Q R : World -> Prop) (m : M A) (k : A -> M B) :
  establishes P Q m -> (forall a, establishes Q R (k a)) ->
  establishes P R (Engine.bind m k).
Proof.
  intros Hm Hk w H. unfold Engine.bind.
  specialize (Hm w H). destruct (m w) as [a w']. apply Hk, Hm.
Qed.

Lemma establishes_gets {A B} (P R : World -> Prop) (f : World -> A)
  (k : A -> M B) :
  (forall a, establishes P R (k a)) ->
  establishes P R (Engine.bind (gets f) k).
Proof. intros Hk w H. apply Hk, H. Qed.

Ltac edit_close :=
  repeat match goal with
         | H : _ /\ _ |- _ => destruct H
         | H : _ \/ _ |- _ => destruct H
         end;
  try discriminate;
  repeat match goal with |- _ /\ _ => split end;
  first [ reflexivity | assumption | left; reflexivity | right; reflexivity
        | discriminate
        | match goal with H : ?x <> ?x |- _ => exfalso; apply H; reflexivity end ].

Ltac edit_cases w :=
  intros w;
  destruct w as [[wd wh [[wt wp]|]] wdisp wset [[| | | |] [wqt|] wcv wnt]
                 [[wctl|] weffs] [wldl [wit|]] [wtos wfr wpend wnid]];
  unfold establishes, afterEdit; run_engine; intros ?; split_ifs; run_engine;
  edit_close.

Lemma trigger_afterEdit : preserves afterEdit trigger.
Proof. edit_cases w. Qed.

Lemma checkTriggers_afterEdit (u : ViewUpdate) (s : Settings) :
  preserves afterEdit (checkTriggers u s).
Proof.
  unfold checkTriggers.
  apply preserves_bind; [apply preserves_gets | intros d].
  apply preserves_bind; [apply preserves_gets | intros pos].
  match goal with |- preserves _ (if ?b then _ else _) => destruct b end;
    [apply trigger_afterEdit|].
  do 2 apply preserves_when.
  apply preserves_forEach. intros x.
  apply preserves_when, trigger_afterEdit.
Qed.


Lemma setView_unshown : establishes unshown unshown setView.
Proof. unfold unshown. edit_cases w. Qed.


Lemma cancelQueue_calm : establishes unshown calm cancelQueue.
Proof. unfold unshown, calm. edit_cases w. Qed.

Lemma resetIdleTimer_afterEdit : establishes calm afterEdit resetIdleTimer.
Proof. unfold calm. edit_cases w. Qed.

Lemma pluginUpdate_afterEdit (u : ViewUpdate) (w : World) :
  enabled (settings w) = true ->
  manualTriggerOnly (settings w) = false ->
  docChanged u = true ->
  unshown w ->
  afterEdit (snd (pluginUpdate u w)).
Proof.
  intros He Hm Hu Hw. unfold pluginUpdate.
  unfold Engine.bind at 1. unfold gets at 1. cbv beta iota.
  rewrite He, Hm, Hu. cbn [negb andb when].
  rewrite andb_false_r.
  generalize (settings w). intros s. revert w Hw He Hm.
  enough (H : establishes unshown afterEdit
    (Engine.bind setView (fun _ =>
       Engine.bind
         (Engine.bind (gets (fun w0 => length (doc (view w0)))) (fun newLength =>
          Engine.bind (gets (fun w0 => lastDocLength (plugin w0))) (fun last =>
          Engine.bind (modify (fun w0 =>
             setPlugin (mkTriggerPlugin newLength (idleTimer (plugin w0))) w0))
            (fun _ =>
          Engine.bind cancelQueue (fun _ =>
          Engine.bind resetIdleTimer (fun _ =>
          when (last <? newLength) (checkTriggers u s)))))))
         (fun _ => when false dismiss))))
    by (intros w Hw _ _; apply H, Hw).
  apply (establishes_bind unshown unshown); [apply setView_unshown | intros _].
  apply (establishes_bind unshown afterEdit);
    [|intros _; intros w H; exact H].
  apply establishes_gets. intros newLength.
  apply establishes_gets. intros last.
  apply (establishes_bind unshown unshown); [intros w H; exact H | intros _].
  apply (establishes_bind unshown calm); [apply cancelQueue_calm | intros _].
  apply (establishes_bind calm afterEdit);
    [apply resetIdleTimer_afterEdit | intros _].
  apply preserves_when, checkTriggers_afterEdit.
Qed.

(** Outside [predicting], the resolution of a request changes neither
    phase nor overlay, and dispatches nothing. *)
Lemma predictResume_elsewhere (c : CompletionContext) (r : option jsstring)
  (w : World) :
  phase w <> predicting ->
  phase (exec (predictResume c r) w) = phase w
  /\ overlay (exec (predictResume c r) w) = overlay w
  /\ dispatched (exec (predictResume c r) w) = dispatched w.
Proof.
  destruct w as [[wd wh wg] wdisp wset [[| | | |] wqt wcv wnt] wa wpl wh0];
    run_engine; intros H; try (exfalso; apply H; reflexivity);
    repeat split.
Qed.

Lemma settle_elsewhere (id : nat) (net : Outcome Response) (w : World) :
  phase w <> predicting ->
  phase (exec (settle toLowerCase id net) w) = phase w
  /\ overlay (exec (settle toLowerCase id net) w) = overlay w
  /\ dispatched (exec (settle toLowerCase id net) w) = dispatched w.
Proof.
  intros Hp. unfold settle, exec, Engine.bind, gets, modify. cbn [fst snd].
  destruct (find _ (pending (host w))) as [p|]; [|repeat split].
  set (w1 := setHost _ w).
  assert (H1 : phase w1 <> predicting) by exact Hp.
  destruct (started p) as [r|].
  - apply (predictResume_elsewhere (context p) r w1 H1).
  - destruct (completeFinish toLowerCase (settings w1) _ (aiProvider w1))
      as [[r|e] a'].
    + apply (predictResume_elsewhere (context p) r (setProvider a' w1) H1).
    + repeat split.
Qed.

(** X11. An edit invalidates what was going on.  With the plugin enabled
    and automatic triggering permitted, after a change to the document
    nothing is shown, the idle countdown is running and the phase is
    [idle] or [queued]; and no request that resolves next, whatever it
    carries, changes the phase or shows anything. *)
Theorem edit_invalidates (w : World) (tr : Transaction) :
  enabled (settings w) = true ->
  manualTriggerOnly (settings w) = false ->
  trDocChanged tr = true ->
  phase w <> disabled ->
  afterEdit (exec (dispatchUser tr) w)
  /\ forall id net,
       phase (exec (settle toLowerCase id net) (exec (dispatchUser tr) w))
       = phase (exec (dispatchUser tr) w)
       /\ overlay (exec (settle toLowerCase id net) (exec (dispatchUser tr) w))
          = None.
Proof.
  intros He Hm Hd Hp.
  assert (H : afterEdit (exec (dispatchUser tr) w)).
  { unfold dispatchUser, exec, Engine.bind at 1, modify. cbv beta iota.
    apply pluginUpdate_afterEdit; try assumption.
    split; [exact Hp|]. rewrite Hd. destruct w as [[wd wh wg] ? ? ? ? ? ?].
    reflexivity. }
  split; [exact H|]. intros id net.
  destruct H as (Hph & Ho & _).
  destruct (settle_elsewhere id net (exec (dispatchUser tr) w)) as (H1 & H2 & _).
  { destruct Hph as [-> | ->]; discriminate. }
  split; [exact H1 | rewrite H2; exact Ho].
Qed.
End EditFacts.

Section MoreEngineFacts.
Import JS Types Context Provider Engine Derived.
Variable toLowerCase : jsstring -> jsstring.

Lemma predictResume_commits (c : CompletionContext) (r : option jsstring)
  (w : World) :
  phase w = predicting ->
  cursorPosition (contextData c) = head (view w) ->
  match r with
  | Some (u :: t) =>
      overlay (exec (predictResume c r) w) = Some (u :: t, head (view w))
      /\ phase (exec (predictResume c r) w) = suggesting
      /\ dispatched (exec (predictResume c r) w)
         = dispatched w ++ [Some (u :: t, head (view w))]
  | _ =>
      overlay (exec (predictResume c r) w) = overlay w
      /\ phase (exec (predictResume c r) w) = idle
      /\ dispatched (exec (predictResume c r) w) = dispatched w
  end.
Proof.
  destruct c as [cd cm].
  destruct w as [[wd wh wg] wdisp wset [[| | | |] wqt wcv wnt] wa wpl wh0];
    run_engine; intros Hp Hc; try discriminate Hp;
    destruct r as [[|u t]|]; run_engine; rewrite <- ?Hc, ?Z.eqb_refl;
    repeat split.
Qed.

(** X12. A request that resolves while the phase is [predicting] and the
    cursor is still where its context was taken is committed: non-empty
    text is shown at the cursor by one dispatch and the phase becomes
    [suggesting]; no text or empty text shows nothing and the phase
    becomes [idle]. *)
Theorem resolution_commits_at_cursor (w : World) (id : nat)
  (net : Outcome Response) (r : option jsstring) :
  phase w = predicting ->
  capturedCursor w id = Some (head (view w)) ->
  resolution toLowerCase w id net = Some r ->
  match r with
  | Some (u :: t) =>
      overlay (exec (settle toLowerCase id net) w)
      = Some (u :: t, head (view w))
      /\ phase (exec (settle toLowerCase id net) w) = suggesting
      /\ dispatched (exec (settle toLowerCase id net) w)
         = dispatched w ++ [Some (u :: t, head (view w))]
  | _ =>
      overlay (exec (settle toLowerCase id net) w) = overlay w
      /\ phase (exec (settle toLowerCase id net) w) = idle
      /\ dispatched (exec (settle toLowerCase id net) w) = dispatched w
  end.
Proof.
  unfold capturedCursor, resolution, settle, exec, Engine.bind, gets, modify.
  cbn [fst snd].
  destruct (find _ (pending (host w))) as [p|]; [|discriminate].
  intros Hp [= Hc]. set (w1 := setHost _ w).
  assert (H1 : phase w1 = predicting) by exact Hp.
  assert (H2 : cursorPosition (contextData (context p)) = head (view w1))
    by exact Hc.
  destruct (started p) as [r0|].
  - intros [= <-]. apply (predictResume_commits (context p) r0 w1 H1 H2).
  - change (aiProvider w1) with (aiProvider w).
    change (settings w1) with (settings w).
    destruct (completeFinish toLowerCase (settings w) _ (aiProvider w))
      as [[r0|e] a']; cbn [fst]; [|discriminate].
    intros [= <-].
    apply (predictResume_commits (context p) r0 (setProvider a' w1) H1 H2).
Qed.

(** X13. What [trigger] does in every phase but [disabled].  Refused (in
    manual-only mode, inside a code fence or front matter) it changes
    nothing.  Accepted, it leaves the phase [queued] with a fresh delay
    timer as the only new timer, the previous delay timer cleared, the
    in-flight request of phase [predicting] aborted, the overlay of phase
    [suggesting] cleared, and no request issued. *)
Theorem trigger_queues_or_refuses (w : World) :
  phase w <> disabled ->
  if negb (manualTriggerOnly (settings w)) && eligible w then
    phase (exec trigger w) = queued
    /\ queueTimer (machine (exec trigger w)) = Some (nextId (host w))
    /\ timeouts (host (exec trigger w))
       = match phase w, queueTimer (machine w) with
         | queued, Some id =>
             filter (fun t => negb (Nat.eqb (fst t) id)) (timeouts (host w))
         | _, _ => timeouts (host w)
         end ++ [(nextId (host w), QueueTimer)]
    /\ pending (host (exec trigger w)) = pending (host w)
    /\ overlay (exec trigger w)
       = match phase w with suggesting => None | _ => overlay w end
    /\ aiProvider (exec trigger w)
       = match phase w with
         | predicting => snd (Provider.abort (aiProvider w))
         | _ => aiProvider w
         end
  else
    phase (exec trigger w) = phase w
    /\ overlay (exec trigger w) = overlay w
    /\ host (exec trigger w) = host w
    /\ aiProvider (exec trigger w) = aiProvider w
    /\ queueTimer (machine (exec trigger w)) = queueTimer (machine w).
Proof.
  destruct w as [[wd wh [[wt wp]|]] wdisp wset [[| | | |] [wqt|] wcv wnt]
                 [[wctl|] weffs] [wldl wit] [wtos wfr wpend wnid]];
  run_engine; intros Hp; try (exfalso; apply Hp; reflexivity);
  destruct (manualTriggerOnly wset), (isInCodeBlock wd wh),
    (isInFrontmatter wd wh); run_engine; repeat split.
Qed.

(** X14. Saving settings with [enabled] off, in any phase but
    [disabled], the machine having its reference to the view: the phase
    becomes [disabled]; the delay timer the machine
    holds is cleared and no other timer; the controller the provider
    holds, if it holds one, is signalled and dropped, and no other request
    is signalled; the overlay is cleared if the phase was [suggesting] and
    left otherwise.  The trigger plugin, its idle timer with it, and the
    suspended requests are left as they are.  Saving with [enabled] on
    afterwards gives [idle]. *)
Theorem switching_off_cancels_what_is_held (w : World) (s s' : Settings) :
  phase w <> disabled ->
  currentView (machine w) = true ->
  enabled s = false ->
  enabled s' = true ->
  phase (exec (updateSettings s) w) = disabled
  /\ queueTimer (machine (exec (updateSettings s) w)) = None
  /\ timeouts (host (exec (updateSettings s) w))
     = match queueTimer (machine w) with
       | Some id =>
           filter (fun t => negb (Nat.eqb (fst t) id)) (timeouts (host w))
       | None => timeouts (host w)
       end
  /\ (forall id, queueTimer (machine w) = Some id ->
        ~ In id (List.map fst (timeouts (host (exec (updateSettings s) w)))))
  /\ abortController (aiProvider (exec (updateSettings s) w)) = None
  /\ (forall c, abortController (aiProvider w) = Some c ->
        signalled c (aiProvider (exec (updateSettings s) w)) = true)
  /\ (forall c, abortController (aiProvider w) <> Some c ->
        signalled c (aiProvider (exec (updateSettings s) w))
        = signalled c (aiProvider w))
  /\ overlay (exec (updateSettings s) w)
     = match phase w with suggesting => None | _ => overlay w end
  /\ plugin (exec (updateSettings s) w) = plugin w
  /\ pending (host (exec (updateSettings s) w)) = pending (host w)
  /\ phase (exec (updateSettings s') (exec (updateSettings s) w)) = idle.
Proof.
  destruct w as [[wd wh [[wt wp]|]] wdisp wset [[| | | |] [wqt|] wcv wnt]
                 [[wctl|] weffs] [wldl wit] [wtos wfr wpend wnid]];
  run_engine; intros Hp -> Hs Hs'; try (exfalso; apply Hp; reflexivity);
  rewrite ?Hs, ?Hs'; run_engine; rewrite ?Hs'; run_engine.
  all: repeat match goal with |- _ /\ _ => split end;
       try reflexivity; try discriminate;
       try (intros ? E; discriminate E).
  all: try (intros ? [= <-] Hin; apply in_map_iff in Hin;
            destruct Hin as ([i k] & <- & Hin); apply filter_In in Hin;
            destruct Hin as [_ Hin]; cbn in Hin;
            rewrite Nat.eqb_refl in Hin; discriminate Hin).
  all: try (intros ? [= <-]; unfold signalled; cbn [effects];
            rewrite existsb_app; cbn; rewrite Nat.eqb_refl;
            apply orb_true_r).
  all: intros c Hc; unfold signalled; cbn [effects];
       rewrite ?existsb_app; cbn;
       match goal with
       | Hc : Some ?x <> Some ?y |- _ =>
           destruct (Nat.eqb_spec x y) as [->|];
           [exfalso; apply Hc; reflexivity | rewrite ?orb_false_r; reflexivity]
       | _ => rewrite ?orb_false_r; reflexivity
       end.
Qed.

(** X15. The Escape key does nothing when no overlay is there.  When one
    is, it is cleared at once and a phase [suggesting] becomes [idle];
    no timer and no request is touched. *)
Theorem escape_clears_and_dismisses (w : World) :
  match overlay w with
  | None => exec escapeKey w = w
  | Some _ =>
      overlay (exec escapeKey w) = None
      /\ phase (exec escapeKey w)
         = match phase w with suggesting => idle | st => st end
      /\ timeouts (host (exec escapeKey w)) = timeouts (host w)
      /\ pending (host (exec escapeKey w)) = pending (host w)
      /\ aiProvider (exec escapeKey w) = aiProvider w
  end.
Proof.
  destruct w as [[wd wh [[wt wp]|]] wdisp wset [[| | | |] wqt wcv wnt]
                 wa wpl [wtos wfr wpend wnid]];
  run_engine; repeat split.
Qed.
End MoreEngineFacts.

(* ===================================================================== *)
(** * Further properties: the trigger plugin *)
(* ===================================================================== *)

Section TriggerRule.
Import JS Types Context Provider Engine Derived.



(** [lastIndexOf] of a line break stays below the length, and is not the
    last index when the last unit is no line break. *)
Lemma lastIndexOfAux_bound (s : jsstring) (i acc : Z) :
  acc < i ->
  lastIndexOfAux s [newline] i acc < i + length s.
Proof.
  revert i acc. induction s as [|c s IH]; intros i acc H; cbn [lastIndexOfAux isEmpty].
  - unfold length. cbn. lia.
  - specialize (IH (i + 1) (if startsWith (c :: s) [newline] then i else acc)).
    unfold length in *. cbn [List.length]. rewrite Nat2Z.inj_succ.
    destruct (startsWith (c :: s) [newline]); lia.
Qed.
















End TriggerRule.

(* ===================================================================== *)
(** * Further scenarios *)
(* ===================================================================== *)

Section FurtherScenarios.
Import JS Types Context Provider Engine Samples Derived Cases.

(** With a budget of 9 at offset 20 of [sampleDoc] the window is cut on
    both sides; both cuts are segments next to the cursor. *)
Lemma extractContext_window_adjacent_witness :
  (exists dropped,
     slice sampleDoc 0 20
     = dropped ++ prefix (extractContext (mkEditorState sampleDoc 20 None) 9 true))
  /\ (exists rest,
        sliceFrom sampleDoc 20
        = suffix (extractContext (mkEditorState sampleDoc 20 None) 9 true)
          ++ rest).
Proof.
  apply (extractContext_window_adjacent (mkEditorState sampleDoc 20 None) 9 true).
  - lia.
  - vm_compute. split; discriminate.
Defined.

Lemma extractContext_whole_when_fits_witness :
  prefix (extractContext (mkEditorState note 10 None) 1500 true)
  ++ suffix (extractContext (mkEditorState note 10 None) 1500 true)
  = note.
Proof.
  apply (extractContext_whole_when_fits (mkEditorState note 10 None) 1500 true).
  - vm_compute. split; discriminate.
  - vm_compute. discriminate.
  - vm_compute. discriminate.
Defined.



(** The model answers with a prefixed sentence: the prefix is removed. *)
Lemma complete_returns_cleaned_content_witness :
  configured cfg = true
  /\ fst (complete asciiLower cfg 1 atEnd
            (Returns (okResponse (lit "Try: Name the biggest risk.")))
            (mkAIProvider None []))
     = Returns (Some think).
Proof.
  split; [reflexivity|].
  rewrite (complete_returns_cleaned_content asciiLower cfg 1 atEnd
             (okResponse (lit "Try: Name the biggest risk."))
             (firstChoice (lit "Try: Name the biggest risk."))
             84%N (lit "ry: Name the biggest risk.")
             (mkAIProvider None [])
             eq_refl eq_refl eq_refl eq_refl).
  reflexivity.
Defined.

Lemma overlay_anchored_at_cursor_witness :
  overlay shownAt42 = Some (think, 42)
  /\ (42 = head (view shownAt42) /\ think <> []).
Proof.
  split; [vm_compute; reflexivity|].
  apply (overlay_anchored_at_cursor asciiLower cfg longNote 42
           [CommandTrigger; Settle 1 (okBody think)] think 42).
  vm_compute. reflexivity.
Defined.

(** A suggestion is shown; the writer types on. *)
Lemma edit_invalidates_witness :
  phase shownAt42 = suggesting
  /\ afterEdit (exec (dispatchUser (typed (longNote ++ lit "x") 46 (lit "x")))
                     shownAt42).
Proof.
  split; [vm_compute; reflexivity|].
  apply (edit_invalidates asciiLower shownAt42
           (typed (longNote ++ lit "x") 46 (lit "x"))).
  - vm_compute. reflexivity.
  - vm_compute. reflexivity.
  - reflexivity.
  - vm_compute. discriminate.
Defined.

(** The request made at the end of [note] comes back with [think]. *)
Lemma resolution_commits_at_cursor_witness :
  overlay (exec (settle asciiLower 1 (okBody think)) requested)
  = Some (think, 26)
  /\ phase (exec (settle asciiLower 1 (okBody think)) requested) = suggesting.
Proof.
  pose proof (resolution_commits_at_cursor asciiLower requested 1
                (okBody think) (Some think)) as H.
  assert (H1 : phase requested = predicting) by (vm_compute; reflexivity).
  assert (H2 : capturedCursor requested 1 = Some (head (view requested)))
    by (vm_compute; reflexivity).
  assert (H3 : resolution asciiLower requested 1 (okBody think) = Some (Some think))
    by (vm_compute; reflexivity).
  specialize (H H1 H2 H3). vm_compute in H. vm_compute.
  destruct H as (Ha & Hb & _). split; assumption.
Defined.

Lemma trigger_queues_or_refuses_witness :
  phase (exec trigger start) = queued
  /\ queueTimer (machine (exec trigger start)) = Some 1%nat.
Proof.
  assert (H0 : phase start <> disabled) by (vm_compute; discriminate).
  pose proof (trigger_queues_or_refuses start H0) as H.
  vm_compute in H. vm_compute.
  destruct H as (Ha & Hb & _). split; assumption.
Defined.

(** The countdown is running when the plugin is switched off, then on. *)
Lemma switching_off_cancels_what_is_held_witness :
  phase waiting = queued
  /\ phase (exec (updateSettings cfgOff) waiting) = disabled
  /\ queueTimer (machine (exec (updateSettings cfgOff) waiting)) = None
  /\ idleTimer (plugin (exec (updateSettings cfgOff) waiting))
     = idleTimer (plugin waiting)
  /\ phase (exec (updateSettings cfg) (exec (updateSettings cfgOff) waiting))
     = idle.
Proof.
  split; [vm_compute; reflexivity|].
  assert (H0 : phase waiting <> disabled) by (vm_compute; discriminate).
  assert (H1 : currentView (machine waiting) = true) by (vm_compute; reflexivity).
  destruct (switching_off_cancels_what_is_held waiting cfgOff cfg H0 H1
              eq_refl eq_refl)
    as (Ha & Hb & _ & _ & _ & _ & _ & _ & Hp & _ & Hc).
  split; [exact Ha|]. split; [exact Hb|].
  split; [rewrite Hp; reflexivity | exact Hc].
Defined.

(** What switching off leaves behind.  The idle timer of the last edit
    stays armed; and a request whose controller an earlier stale
    resolution dropped is not signalled, and is still suspended. *)
Example switching_off_leaves_idle_timer_and_orphan :
  (idleTimer (plugin waiting) = Some 1%nat
   /\ In (1%nat, IdleTimer)
         (timeouts (host (exec (updateSettings cfgOff) waiting))))
  /\ (capturedCursor staleSettled 2 = Some 26
      /\ abortController (aiProvider staleSettled) = None
      /\ signalled 2 (aiProvider (exec (updateSettings cfgOff) staleSettled))
         = false
      /\ capturedCursor (exec (updateSettings cfgOff) staleSettled) 2
         = Some 26).
Proof. vm_compute. repeat split; try reflexivity. left; reflexivity. Qed.



(** The recorded length goes stale while the plugin returns early.  In
    manual-only mode the writer cuts [longNote] down to one letter; the
    mode is then switched to automatic and a full stop is typed.  The
    document has grown, from 1 unit to 2, and ends with the mark, but the
    recorded length is still 45 and no trigger fires. *)
Example stale_length_suppresses_trigger :
  let w := run asciiLower
             [Dispatch (mkTransaction true (lit "A") false 1 true []);
              SettingsEdited cfg; SettingsSaved]
             (initial cfgManualOnly longNote 45) in
  length (doc (view w)) = 1
  /\ lastDocLength (plugin w) = 45
  /\ manualTriggerOnly (settings w) = false
  /\ phase (run asciiLower [Dispatch (typed (lit "A.") 2 (lit "."))] w) = idle
  /\ lastDocLength
       (plugin (run asciiLower [Dispatch (typed (lit "A.") 2 (lit "."))] w))
     = 2.
Proof. vm_compute. repeat split; reflexivity. Qed.

End FurtherScenarios.
